(** * simplemattable: the table component and the form-field builder

    A shallow embedding of [SimplemattableComponent] (dirty checking of the
    columns, reconciliation of the data source, inline editing) and of
    [AbstractFormField] (the fluent setters), over a small model of the
    JavaScript values, objects and strings these two classes manipulate. *)

From Stdlib Require Import ZArith List String Ascii Bool Lia.
From Stdlib Require Import DecimalString DecimalNat DecimalZ.
From stdpp Require Import base option numbers list strings.

Open Scope string_scope.
Open Scope list_scope.

(* ================================================================== *)
(** * JavaScript values *)
(* ================================================================== *)

(** Primitive values, function references and object references.  A
    number is an integer ([VNum]; the two zeros are one value here),
    [NaN], which is kept apart because [!==] and [indexOf] treat it
    specially, or any other number, a fraction or an infinity
    ([VNumOther], by its index among the numbers of the runtime).  A
    string is a sequence of code units below 256. *)
Inductive jsval :=
  | VUndefined
  | VNull
  | VBool (b : bool)
  | VNum (n : Z)
  | VNaN
  | VStr (s : string)
  | VFun (f : nat)
  | VRef (a : nat)
  | VNumOther (x : nat).

#[global] Instance jsval_eq_dec : EqDecision jsval.
Proof. solve_decision. Defined.

(** [a === b]. *)
Definition strict_eq (a b : jsval) : bool :=
  match a, b with
  | VNaN, _ | _, VNaN => false
  | _, _ => bool_decide (a = b)
  end.

(** The truthiness test of [if (v)], [!v], [v ? _ : _]. *)
Definition truthy (v : jsval) : bool :=
  match v with
  | VUndefined | VNull | VNaN => false
  | VBool b => b
  | VNum n => negb (n =? 0)%Z
  | VStr s => negb (String.eqb s "")
  | VFun _ | VRef _ | VNumOther _ => true
  end.

(* ================================================================== *)
(** * Strings *)
(* ================================================================== *)

(** [n.toString()] for an index. *)
Definition toString_nat (n : nat) : string :=
  NilEmpty.string_of_uint (Nat.to_uint n).

(** The decimal numeral of an integer. *)
Definition toString_Z (z : Z) : string :=
  NilZero.string_of_int (Z.to_int z).

(** The integers that [toString] prints digit by digit: those up to
    [2^53] in magnitude.  Beyond them the digits printed are those of the
    shortest numeral that reads back as the number, and from [1e21] on
    the exponent form is used. *)
Definition safe_integer (z : Z) : bool := (Z.abs z <=? 2 ^ 53)%Z.

(** [+s] for a string of decimal digits ([+''] is [0]); [None] stands for
    a string that is no decimal numeral, where the source gets a number
    that indexes no column. *)
Definition toNumber (s : string) : option nat :=
  Nat.of_uint <$> NilEmpty.uint_of_string s.

(** [s.startsWith(p)]. *)
Fixpoint startsWith (s p : string) : bool :=
  match p, s with
  | EmptyString, _ => true
  | String a p', String b s' => Ascii.eqb a b && startsWith s' p'
  | String _ _, EmptyString => false
  end.

(** [s.split(sep)]: the segments between the occurrences of [sep]. *)
Fixpoint split (sep : ascii) (s : string) : list string :=
  match s with
  | EmptyString => [EmptyString]
  | String c s' =>
      if Ascii.eqb c sep then EmptyString :: split sep s'
      else match split sep s' with
           | seg :: segs => String c seg :: segs
           | [] => [String c EmptyString]
           end
  end.

(** [s.indexOf(needle)], [-1] when [needle] does not occur. *)
Fixpoint indexOf_from (i : Z) (s needle : string) : Z :=
  if startsWith s needle then i
  else match s with
       | EmptyString => (-1)%Z
       | String _ s' => indexOf_from (i + 1)%Z s' needle
       end.

Definition indexOf (s needle : string) : Z := indexOf_from 0%Z s needle.

(** [toLowerCase] on a code unit below 256: the capital letters are
    [A] to [Z] and, in the upper half, U+00C0 to U+00DE without the
    multiplication sign U+00D7; each has its small letter 32 places
    further on.  Other code units are left alone. *)
Definition lower_ascii (c : ascii) : ascii :=
  let n := nat_of_ascii c in
  if ((65 <=? n)%nat && (n <=? 90)%nat)
     || ((192 <=? n)%nat && (n <=? 222)%nat && negb (n =? 215)%nat)
  then ascii_of_nat (n + 32) else c.

Fixpoint toLowerCase (s : string) : string :=
  match s with
  | EmptyString => EmptyString
  | String c s' => String (lower_ascii c) (toLowerCase s')
  end.

(** White space and line terminators as [trim] sees them, among the code
    units below 256: tab, line feed, vertical tab, form feed, carriage
    return, space and the no-break space U+00A0. *)
Definition is_space (c : ascii) : bool :=
  let n := nat_of_ascii c in
  ((9 <=? n)%nat && (n <=? 13)%nat) || (n =? 32)%nat || (n =? 160)%nat.

Fixpoint trimStart (s : string) : string :=
  match s with
  | EmptyString => EmptyString
  | String c s' => if is_space c then trimStart s' else s
  end.

Fixpoint trimEnd (s : string) : string :=
  match s with
  | EmptyString => EmptyString
  | String c s' =>
      match trimEnd s' with
      | EmptyString => if is_space c then EmptyString else String c EmptyString
      | t => String c t
      end
  end.

Definition trim (s : string) : string := trimEnd (trimStart s).

(* ================================================================== *)
(** * Objects and the heap *)
(* ================================================================== *)

(** The own enumerable properties of an object, in insertion order. *)
Abbreviation props := (list (string * jsval)).

Fixpoint get_prop (ps : props) (k : string) : jsval :=
  match ps with
  | [] => VUndefined
  | (k', v) :: ps' => if String.eqb k' k then v else get_prop ps' k
  end.

Fixpoint set_prop (ps : props) (k : string) (v : jsval) : props :=
  match ps with
  | [] => [(k, v)]
  | (k', v') :: ps' =>
      if String.eqb k' k then (k, v) :: ps' else (k', v') :: set_prop ps' k v
  end.

(** The keys a [for (const key in o)] loop visits on a plain object. *)
Definition keys (ps : props) : list string := map fst ps.

(** [Object.assign(target, src)]. *)
Definition Object_assign (target src : props) : props :=
  fold_left (fun t kv => set_prop t (fst kv) (snd kv)) src target.

(** What an object is, besides its named properties: an instance of the
    class with constructor [c], an array with its elements, or a date with
    its time value. *)
Inductive kind :=
  | KObject (c : nat)
  | KArray (l : list jsval)
  | KDate (t : Z).

Record obj := Obj { okind : kind; oprops : props }.

#[global] Instance kind_eq_dec : EqDecision kind.
Proof. solve_decision. Defined.

#[global] Instance obj_eq_dec : EqDecision obj.
Proof. solve_decision. Defined.

(** The heap: an object reference [VRef a] is an index into it, and [new]
    appends. *)
Abbreviation heap := (list obj).

Definition alloc (o : obj) (h : heap) : jsval * heap :=
  (VRef (List.length h), h ++ [o]).

(** [v[k]] for a named property [k]; [None] is the TypeError of reading a
    property of [undefined] or [null].  Named properties only: the columns
    of the table address fields of the rows, not array indices. *)
Definition get_member (h : heap) (v : jsval) (k : string) : option jsval :=
  match v with
  | VUndefined | VNull => None
  | VRef a => o ← h !! a; Some (get_prop (oprops o) k)
  | _ => Some VUndefined
  end.

(** [v[k] = x] for a named property [k]; the assignment throws on
    [undefined], [null] and (in strict mode, which modules are in) on the
    other primitives. *)
Definition set_member (h : heap) (v : jsval) (k : string) (x : jsval)
  : option heap :=
  match v with
  | VRef a =>
      o ← h !! a;
      Some (<[a := Obj (okind o) (set_prop (oprops o) k x)]> h)
  | _ => None
  end.

(** [Object.keys(o).length]: the elements of an array count, each under
    its index. *)
Definition own_key_count (o : obj) : nat :=
  match okind o with
  | KArray l => List.length l
  | _ => 0
  end + List.length (oprops o).

(** [k in o] for a named property. *)
Definition has_key (ps : props) (k : string) : bool :=
  existsb (String.eqb k) (keys ps).

(** A boxed value, as the forms library knows it: an object with exactly
    two properties of its own, among which are [value] and [disabled];
    the result is its properties. *)
Definition boxed_value (h : heap) (v : jsval) : option props :=
  match v with
  | VRef a =>
      o ← h !! a;
      if (own_key_count o =? 2)%nat
         && has_key (oprops o) "value" && has_key (oprops o) "disabled"
      then Some (oprops o) else None
  | _ => None
  end.

(* ================================================================== *)
(** * Insertion-ordered maps ([Map<K, V>]) *)
(* ================================================================== *)

Section JsMap.
Context {K V : Type} `{EqDecision K}.

Fixpoint Map_get (m : list (K * V)) (k : K) : option V :=
  match m with
  | [] => None
  | (k', v) :: m' => if decide (k' = k) then Some v else Map_get m' k
  end.

Definition Map_has (m : list (K * V)) (k : K) : bool :=
  bool_decide (is_Some (Map_get m k)).

(** [set] keeps the position of a key that is already there. *)
Fixpoint Map_set (m : list (K * V)) (k : K) (v : V) : list (K * V) :=
  match m with
  | [] => [(k, v)]
  | (k', v') :: m' =>
      if decide (k' = k) then (k, v) :: m' else (k', v') :: Map_set m' k v
  end.

Fixpoint Map_delete (m : list (K * V)) (k : K) : list (K * V) :=
  match m with
  | [] => []
  | (k', v') :: m' =>
      if decide (k' = k) then m' else (k', v') :: Map_delete m' k
  end.
End JsMap.

(* ================================================================== *)
(** * The host: callbacks, constructors and the Material data source *)
(* ================================================================== *)

(** [MatSort]: the active sort header and its direction ([''] when off). *)
Record MatSort := { active : string; direction : string }.

(** What the component does not define itself.  [host_call f args h] runs
    the host function [f] (a column's [transform], a form field's [init] or
    [apply], the [create] input) on the heap [h] and gives its result and
    the heap it leaves; host functions return.  [construct c] is [new C()]
    for the function [c], called without arguments: the fields that the
    constructor leaves in the new object, or [None] where [c] cannot be
    constructed or its constructor throws; a constructor writes to the
    object it constructs.  [obj_toString] is [toString] on functions and
    objects, and [number_toString] on the numbers that are not printed
    digit by digit.  [sortData cols h rows
    sort] is the sort function of the data source ([cols]: the columns
    that its sorting accessor closed over): it sorts the array it is
    given in place, so that what it gives is that array in its new order,
    a permutation of [rows], and the heap that the accessor, which calls
    the [sortTransform] and [transform] of the columns, leaves.
    [stack_depth] bounds the depth of recursive calls. *)
Class HostEnv := {
  construct : nat -> option props;
  host_call : nat -> list jsval -> heap -> jsval * heap;
  obj_toString : heap -> jsval -> string;
  number_toString : jsval -> string;
  sortData :
    option (list props) -> heap -> list jsval -> MatSort -> list jsval * heap;
  sortData_permutes :
    forall cols h rows sort, Permutation (fst (sortData cols h rows sort)) rows;
  stack_depth : nat
}.

(** Modelled from the spec: the class [DataStatus], the per-row status
    (model/data-status.model), is not among the sources; the component
    reads and writes its [editing] and [added] fields. *)
Record DataStatus := { editing : bool; added : bool }.

(** Modelled from the spec: [new DataStatus()], whose constructor is not
    among the sources; a fresh status is neither editing nor added. *)
Definition new_DataStatus : DataStatus :=
  {| editing := false; added := false |}.

(** A form control ([AbstractControl]): its identity as an object, its
    current value and its validity. *)
Record AbstractControl := { ctl_id : nat; value : jsval; valid : bool }.

(** [MatTableDataSource]: its identity, the array it holds, the filter
    string, whether a paginator and a sort are attached, and the visible
    columns its sorting accessor closed over.  The data source keeps the
    array it was given, not a copy: [ds_data] is [None] while that array
    is the one [this.data] refers to, so that every change of the data
    array shows in the data source, and [Some rows] for another array,
    with its elements. *)
Record MatTableDataSource := {
  ds_id : nat;
  ds_data : option (list jsval);
  ds_filter : string;
  ds_paginator : bool;
  ds_sort : bool;
  ds_sortCols : option (list props)
}.

(** What the component emits or prints. *)
Inductive Event :=
  | EmitAdd (e : jsval)
  | EmitEdit (e : jsval)
  | ConsoleLog (l : list jsval).

(** The fields of [SimplemattableComponent] that its methods read or
    write.  A column is the record of its own enumerable properties; the
    inputs [data] and [columns] are arrays, as their types say.  [nextId]
    numbers the data sources and controls constructed so far. *)
Record Component := {
  data : list jsval;
  columns : list props;
  paginator : bool;
  sorting : bool;
  editable : bool;
  addable : bool;
  deletable : bool;
  create : jsval;
  displayedColumns : list string;
  dataSource : option MatTableDataSource;
  currentlyAdding : bool;
  dataStatus : list (jsval * DataStatus);
  oldColumns : list props;
  formControls : list (string * AbstractControl);
  matSort : MatSort;
  nextId : nat
}.

Definition set_data (d : list jsval) (c : Component) : Component :=
  {| data := d; columns := columns c; paginator := paginator c;
     sorting := sorting c; editable := editable c; addable := addable c;
     deletable := deletable c; create := create c;
     displayedColumns := displayedColumns c; dataSource := dataSource c;
     currentlyAdding := currentlyAdding c; dataStatus := dataStatus c;
     oldColumns := oldColumns c; formControls := formControls c;
     matSort := matSort c; nextId := nextId c |}.

Definition set_displayedColumns (d : list string) (c : Component) : Component :=
  {| data := data c; columns := columns c; paginator := paginator c;
     sorting := sorting c; editable := editable c; addable := addable c;
     deletable := deletable c; create := create c;
     displayedColumns := d; dataSource := dataSource c;
     currentlyAdding := currentlyAdding c; dataStatus := dataStatus c;
     oldColumns := oldColumns c; formControls := formControls c;
     matSort := matSort c; nextId := nextId c |}.

Definition set_dataSource (d : option MatTableDataSource) (c : Component)
  : Component :=
  {| data := data c; columns := columns c; paginator := paginator c;
     sorting := sorting c; editable := editable c; addable := addable c;
     deletable := deletable c; create := create c;
     displayedColumns := displayedColumns c; dataSource := d;
     currentlyAdding := currentlyAdding c; dataStatus := dataStatus c;
     oldColumns := oldColumns c; formControls := formControls c;
     matSort := matSort c; nextId := nextId c |}.

Definition set_currentlyAdding (b : bool) (c : Component) : Component :=
  {| data := data c; columns := columns c; paginator := paginator c;
     sorting := sorting c; editable := editable c; addable := addable c;
     deletable := deletable c; create := create c;
     displayedColumns := displayedColumns c; dataSource := dataSource c;
     currentlyAdding := b; dataStatus := dataStatus c;
     oldColumns := oldColumns c; formControls := formControls c;
     matSort := matSort c; nextId := nextId c |}.

Definition set_dataStatus (d : list (jsval * DataStatus)) (c : Component)
  : Component :=
  {| data := data c; columns := columns c; paginator := paginator c;
     sorting := sorting c; editable := editable c; addable := addable c;
     deletable := deletable c; create := create c;
     displayedColumns := displayedColumns c; dataSource := dataSource c;
     currentlyAdding := currentlyAdding c; dataStatus := d;
     oldColumns := oldColumns c; formControls := formControls c;
     matSort := matSort c; nextId := nextId c |}.

Definition set_oldColumns (o : list props) (c : Component) : Component :=
  {| data := data c; columns := columns c; paginator := paginator c;
     sorting := sorting c; editable := editable c; addable := addable c;
     deletable := deletable c; create := create c;
     displayedColumns := displayedColumns c; dataSource := dataSource c;
     currentlyAdding := currentlyAdding c; dataStatus := dataStatus c;
     oldColumns := o; formControls := formControls c;
     matSort := matSort c; nextId := nextId c |}.

Definition set_formControls (f : list (string * AbstractControl))
  (c : Component) : Component :=
  {| data := data c; columns := columns c; paginator := paginator c;
     sorting := sorting c; editable := editable c; addable := addable c;
     deletable := deletable c; create := create c;
     displayedColumns := displayedColumns c; dataSource := dataSource c;
     currentlyAdding := currentlyAdding c; dataStatus := dataStatus c;
     oldColumns := oldColumns c; formControls := f;
     matSort := matSort c; nextId := nextId c |}.

Definition set_matSort (m : MatSort) (c : Component) : Component :=
  {| data := data c; columns := columns c; paginator := paginator c;
     sorting := sorting c; editable := editable c; addable := addable c;
     deletable := deletable c; create := create c;
     displayedColumns := displayedColumns c; dataSource := dataSource c;
     currentlyAdding := currentlyAdding c; dataStatus := dataStatus c;
     oldColumns := oldColumns c; formControls := formControls c;
     matSort := m; nextId := nextId c |}.

Definition set_nextId (n : nat) (c : Component) : Component :=
  {| data := data c; columns := columns c; paginator := paginator c;
     sorting := sorting c; editable := editable c; addable := addable c;
     deletable := deletable c; create := create c;
     displayedColumns := displayedColumns c; dataSource := dataSource c;
     currentlyAdding := currentlyAdding c; dataStatus := dataStatus c;
     oldColumns := oldColumns c; formControls := formControls c;
     matSort := matSort c; nextId := n |}.

(** The rows that a data source of the component [c] holds. *)
Definition ds_rows (c : Component) (ds : MatTableDataSource) : list jsval :=
  default (data c) (ds_data ds).

(** The component, the heap of the page and the events emitted so far. *)
Record World := { this : Component; mem : heap; out : list Event }.

(* ================================================================== *)
(** * A state and exception monad for the methods *)
(* ================================================================== *)

(** A method runs on a world and either throws ([None]) or returns a
    result and the world it leaves. *)
Definition M (A : Type) : Type := World -> option (A * World).

Definition ret {A} (a : A) : M A := fun w => Some (a, w).

Definition throw {A} : M A := fun _ => None.

Definition bind {A B} (m : M A) (k : A -> M B) : M B :=
  fun w => match m w with
           | Some (a, w') => k a w'
           | None => None
           end.

Notation "'do' x <- m ; k" := (bind m (fun x => k))
  (at level 10, x name, m at level 100, k at level 200).
Notation "m ;; k" := (bind m (fun _ => k))
  (at level 100, k at level 200, right associativity).

(** Reading and writing [this], the heap and the event log. *)
Definition getThis : M Component := fun w => Some (this w, w).

Definition getMem : M heap := fun w => Some (mem w, w).

Definition modify (f : Component -> Component) : M unit :=
  fun w => Some (tt, {| this := f (this w); mem := mem w; out := out w |}).

Definition putMem (h : heap) : M unit :=
  fun w => Some (tt, {| this := this w; mem := h; out := out w |}).

Definition emit (e : Event) : M unit :=
  fun w => Some (tt, {| this := this w; mem := mem w; out := out w ++ [e] |}).

(** An operation that may throw, lifted. *)
Definition orThrow {A} (o : option A) : M A :=
  fun w => match o with Some a => Some (a, w) | None => None end.

(** [for (x of l) body(x)], or [l.forEach(body)]. *)
Fixpoint forEach {A} (l : list A) (body : A -> M unit) : M unit :=
  match l with
  | [] => ret tt
  | x :: l' => body x ;; forEach l' body
  end.

(* ================================================================== *)
(** * Calls, conversions and arrays *)
(* ================================================================== *)

Section Methods.
Context `{HostEnv}.

(** [f(args)]: calling anything but a function is a TypeError. *)
Definition call (f : jsval) (args : list jsval) : M jsval :=
  match f with
  | VFun n =>
      do h <- getMem;
      let r := host_call n args h in
      putMem (snd r) ;; ret (fst r)
  | _ => throw
  end.

(** [v.toString()]; there is no such method on [undefined] and [null]. *)
Definition toString (h : heap) (v : jsval) : option string :=
  match v with
  | VUndefined | VNull => None
  | VBool true => Some "true"
  | VBool false => Some "false"
  | VNum n =>
      Some (if safe_integer n then toString_Z n else number_toString v)
  | VNumOther _ => Some (number_toString v)
  | VNaN => Some "NaN"
  | VStr s => Some s
  | VFun _ | VRef _ => Some (obj_toString h v)
  end.

(** The conversion of [v] to a string in [s + v] and in [o[v]]. *)
Definition to_key (h : heap) (v : jsval) : string :=
  match v with
  | VUndefined => "undefined"
  | VNull => "null"
  | _ => default "" (toString h v)
  end.

(** [o[p]] where the key [p] is a value. *)
Definition member (o p : jsval) : M jsval :=
  do h <- getMem; orThrow (get_member h o (to_key h p)).

(** [o[p] = x]. *)
Definition assign_member (o p x : jsval) : M unit :=
  do h <- getMem;
  do h' <- orThrow (set_member h o (to_key h p) x);
  putMem h'.

(** [l.indexOf(x)]: the first index whose element is [===] to [x]. *)
Fixpoint array_indexOf_from (i : Z) (l : list jsval) (x : jsval) : Z :=
  match l with
  | [] => (-1)%Z
  | y :: l' => if strict_eq y x then i else array_indexOf_from (i + 1)%Z l' x
  end.

Definition array_indexOf (l : list jsval) (x : jsval) : Z :=
  array_indexOf_from 0%Z l x.

(** [l.splice(start, 1)], the array it leaves: a negative [start] counts
    from the end. *)
Definition splice1 (start : Z) (l : list jsval) : list jsval :=
  let len := Z.of_nat (List.length l) in
  let from := if (start <? 0)%Z then Z.max (len + start) 0
              else Z.min start len in
  take (Z.to_nat from) l ++ drop (S (Z.to_nat from)) l.

(** [l.some((x, i) => p(x, i))]. *)
Fixpoint some_from {A} (i : nat) (p : A -> nat -> bool) (l : list A) : bool :=
  match l with
  | [] => false
  | x :: l' => p x i || some_from (S i) p l'
  end.

Definition some_i {A} (p : A -> nat -> bool) (l : list A) : bool :=
  some_from 0 p l.

(** [l.map((x, i) => f(x, i))]. *)
Fixpoint map_from {A B} (i : nat) (f : A -> nat -> B) (l : list A) : list B :=
  match l with
  | [] => []
  | x :: l' => f x i :: map_from (S i) f l'
  end.

Definition map_i {A B} (f : A -> nat -> B) (l : list A) : list B :=
  map_from 0 f l.

(* ================================================================== *)
(** * The methods of the component *)
(* ================================================================== *)

Definition ngOnInit : M unit :=
  do c <- getThis;
  if addable c && negb (truthy (create c)) then throw else ret tt.

(** [this.dataSource.x]: reading a field of a data source that was never
    built throws. *)
Definition theDataSource : M MatTableDataSource :=
  do c <- getThis; orThrow (dataSource c).

Definition applyFilter (filterValue : string) : M unit :=
  let filterValue := trim filterValue in
  let filterValue := toLowerCase filterValue in
  do ds <- theDataSource;
  modify (set_dataSource (Some
    {| ds_id := ds_id ds; ds_data := ds_data ds; ds_filter := filterValue;
       ds_paginator := ds_paginator ds; ds_sort := ds_sort ds;
       ds_sortCols := ds_sortCols ds |})).

(** [this.fb.control(v)]: a new control made of the form state [v].
    [FormBuilder] takes a boxed value apart: the control gets the [value]
    of the box and is disabled, hence not valid, when its [disabled] is
    truthy.  Any other form state is the value of the control; no
    validator is passed, so that the control is valid. *)
Definition fb_control (v : jsval) : M AbstractControl :=
  do c <- getThis;
  do h <- getMem;
  modify (set_nextId (S (nextId c))) ;;
  ret match boxed_value h v with
      | Some box =>
          {| ctl_id := nextId c; value := get_prop box "value";
             valid := negb (truthy (get_prop box "disabled")) |}
      | None => {| ctl_id := nextId c; value := v; valid := true |}
      end.

Definition getFormControl (rowIndex colIndex : nat) (tcol : props)
    (element : jsval) : M AbstractControl :=
  let id := toString_nat rowIndex +:+ "_" +:+ toString_nat colIndex in
  do c <- getThis;
  if Map_has (formControls c) id then orThrow (Map_get (formControls c) id)
  else
    do h <- getMem;
    do init <- orThrow (get_member h (get_prop tcol "formField") "init");
    do v <- (if truthy init
             then do p <- member element (get_prop tcol "property");
                  call init [p; element]
             else member element (get_prop tcol "property"));
    do control <- fb_control v;
    modify (fun c => set_formControls (Map_set (formControls c) id control) c) ;;
    ret control.

Definition getDisplayedCols (cols : list props) : list props :=
  List.filter (fun col => truthy (get_prop col "visible")) cols.

Definition getStringRepresentation (tcol : props) (element : jsval)
  : M jsval :=
  if truthy (get_prop tcol "transform")
  then do p <- member element (get_prop tcol "property");
       call (get_prop tcol "transform") [p; element]
  else do p <- member element (get_prop tcol "property");
       do h <- getMem;
       do s <- orThrow (toString h p);
       ret (VStr s).

(** [s.toLowerCase()] exists on strings only. *)
Definition asString (v : jsval) : M string :=
  match v with VStr s => ret s | _ => throw end.

(** The filter predicate that [recreateDataSource] installs; it reads
    [this.columns] when it is called. *)
Definition filterPredicate (row : jsval) (filter : string) : M bool :=
  do c <- getThis;
  do str <- fold_left
              (fun (acc : M string) col =>
                 do str <- acc;
                 do r <- getStringRepresentation col row;
                 do s <- asString r;
                 ret (str +:+ trim (toLowerCase s)))
              (columns c) (ret "");
  ret (0 <=? indexOf str (trim (toLowerCase filter)))%Z.

Definition recreateDataSource : M unit :=
  do c <- getThis;
  do h <- getMem;
  (* [this.columns && this.data]: both are arrays, hence truthy *)
  (* [new MatTableDataSource(this.data)] keeps the array itself *)
  let ds := {| ds_id := nextId c; ds_data := None; ds_filter := "";
               ds_paginator := paginator c; ds_sort := sorting c;
               ds_sortCols := if sorting c
                              then Some (List.filter
                                     (fun col => truthy (get_prop col "visible"))
                                     (columns c))
                              else None |} in
  let shown := map_i (fun col i =>
                 toString_nat i +:+ "_" +:+ to_key h (get_prop col "property"))
                 (getDisplayedCols (columns c)) in
  modify (set_nextId (S (nextId c))) ;;
  modify (set_dataSource (Some ds)) ;;
  modify (set_displayedColumns
            (if editable c || addable c || deletable c
             then shown ++ ["actions"] else shown)).

Definition turnOffSorting : M unit :=
  do c <- getThis;
  if negb (String.eqb (active (matSort c)) "")
  then modify (set_matSort {| active := ""; direction := "" |})
  else ret tt.

(** The [forEach] of [clearAddedEntry]: it carries [toDelete] and the data
    array through the entries of the row-status map. *)
Definition clearAdded_loop (entries : list (jsval * DataStatus))
    (start : jsval * list jsval) : jsval * list jsval :=
  fold_left
    (fun (acc : jsval * list jsval) (entry : jsval * DataStatus) =>
       if added (snd entry)
       then (fst entry,
             splice1 (array_indexOf (snd acc) (fst entry)) (snd acc))
       else acc)
    entries start.

Definition clearAddedEntry : M unit :=
  do c <- getThis;
  let r := clearAdded_loop (dataStatus c) (VUndefined, data c) in
  modify (set_data (snd r)) ;;
  if truthy (fst r)
  then modify (fun c => set_dataStatus (Map_delete (dataStatus c) (fst r)) c)
  else ret tt.

Definition cleanUpAfterDataChange (columnChanges : bool) : M unit :=
  modify (set_dataStatus []) ;;
  do c <- getThis;
  modify (set_dataStatus
            (fold_left (fun m d => Map_set m d new_DataStatus) (data c) [])) ;;
  modify (set_formControls []) ;;
  (if negb (String.eqb (active (matSort c)) "")
   then if columnChanges then turnOffSorting
        else do ds <- theDataSource;
             do h <- getMem;
             (* the array of the data source is sorted in place, and
                assigned to the data source again *)
             let sorted :=
               sortData (ds_sortCols ds) h (ds_rows c ds) (matSort c) in
             putMem (snd sorted) ;;
             match ds_data ds with
             | None => modify (set_data (fst sorted))
             | Some _ =>
                 modify (set_dataSource (Some
                   {| ds_id := ds_id ds; ds_data := Some (fst sorted);
                      ds_filter := ds_filter ds;
                      ds_paginator := ds_paginator ds;
                      ds_sort := ds_sort ds; ds_sortCols := ds_sortCols ds |}))
             end
   else ret tt) ;;
  modify (set_currentlyAdding false).

Definition startAddElement : M unit :=
  do c <- getThis;
  do ele <- call (create c) [];
  modify (fun c => set_data (ele :: data c) c) ;;
  recreateDataSource ;;
  cleanUpAfterDataChange false ;;
  let status := {| editing := true; added := true |} in
  modify (fun c => set_dataStatus (Map_set (dataStatus c) ele status) c) ;;
  modify (set_currentlyAdding true).

(** One round of the [for (const prop in obj)] loop of [deepCopy]:
    [clonedObj[prop] = this.deepCopy(obj[prop])], with [rec] for the
    recursive call; [acc] is the heap so far, or [None] once a round has
    thrown. *)
Definition deepCopy_prop (rec : jsval -> heap -> option (jsval * heap))
    (obj clonedObj : jsval) (acc : option heap) (prop : string)
  : option heap :=
  h ← acc;
  x ← get_member h obj prop;
  r ← rec x h;
  set_member (snd r) clonedObj prop (fst r).

(** [obj.constructor] as a constructor: a property of the object's own
    with that name hides the constructor of its class, and can be called
    with [new] only when it is a function. *)
Definition constructor_of (c : nat) (ps : props) : option nat :=
  if has_key ps "constructor"
  then match get_prop ps "constructor" with
       | VFun f => Some f
       | _ => None
       end
  else Some c.

(** [deepCopy] on the heap.  Each nested call on an object takes a frame
    of the call stack; [n] is what is left of it, and running out of it
    (a cyclic object does) is an exception. *)
Fixpoint deepCopy_fuel (n : nat) (obj : jsval) (h : heap)
  : option (jsval * heap) :=
  match obj with
  | VRef a =>
      o ← h !! a;
      match okind o with
      | KDate t => Some (alloc (Obj (KDate t) []) h)
      | KArray l => Some (alloc (Obj (KArray l) []) h)
      | KObject c =>
          match n with
          | O => None
          | S n' =>
              c' ← constructor_of c (oprops o);
              fields ← construct c';
              let clone := alloc (Obj (KObject c') fields) h in
              h' ← foldl (deepCopy_prop (deepCopy_fuel n') obj (fst clone))
                     (Some (snd clone)) (keys (oprops o));
              Some (fst clone, h')
          end
      end
  | _ => Some (obj, h)
  end.

Definition deepCopy (obj : jsval) : M jsval :=
  do h <- getMem;
  do r <- orThrow (deepCopy_fuel stack_depth obj h);
  putMem (snd r) ;; ret (fst r).

Definition iteratorToArray {Z} (iterator : list Z) : list Z := iterator.

(** The controls [saveElement] collects for a row index, each with the
    column index read off its id ([None]: the id has no second segment or
    it is no numeral). *)
Definition collectControls (rowIndex : nat)
    (entries : list (string * AbstractControl))
  : list (option nat * AbstractControl) :=
  map (fun entry => (split "_" (fst entry) !! 1 ≫= toNumber, snd entry))
    (List.filter (fun entry => startsWith (fst entry) (toString_nat rowIndex))
       (iteratorToArray entries)).

Definition saveElement (rowIndex : nat) (oldElement : jsval) : M unit :=
  do c <- getThis;
  let controls := collectControls rowIndex (formControls c) in
  if existsb (fun control => negb (valid (snd control))) controls then ret tt
  else
    do element <- deepCopy oldElement;
    forEach controls (fun control =>
      do c <- getThis;
      do tcol <- orThrow (col ← fst control; getDisplayedCols (columns c) !! col);
      let val := value (snd control) in
      do h <- getMem;
      do apply <- orThrow (get_member h (get_prop tcol "formField") "apply");
      do v <- (if truthy apply
               then do p <- member element (get_prop tcol "property");
                    call apply [val; p; element]
               else ret val);
      assign_member element (get_prop tcol "property") v) ;;
    do c <- getThis;
    do status <- orThrow (Map_get (dataStatus c) oldElement);
    if added status
    then modify (set_currentlyAdding false) ;;
         modify (fun c => set_data (tail (data c)) c) ;;
         do c <- getThis;
         emit (ConsoleLog (data c)) ;;
         emit (EmitAdd element)
    else emit (EmitEdit element).

Definition startEditElement (element : jsval) : M unit :=
  do c <- getThis;
  let status := default new_DataStatus (Map_get (dataStatus c) element) in
  let status := {| editing := true; added := added status |} in
  modify (set_dataStatus (Map_set (dataStatus c) element status)).

Definition cancelEditElement (element : jsval) : M unit :=
  do c <- getThis;
  do status <- orThrow (Map_get (dataStatus c) element);
  modify (set_dataStatus
            (Map_set (dataStatus c) element
               {| editing := false; added := added status |})).

(** The part of [SimpleChanges] that [ngOnChanges] looks at: which inputs
    changed. *)
Record SimpleChanges := { changes_data : bool; changes_columns : bool }.

Definition ngOnChanges (changes : SimpleChanges) : M unit :=
  if changes_data changes
  then clearAddedEntry ;;
       recreateDataSource ;;
       cleanUpAfterDataChange (changes_columns changes)
  else ret tt.

Definition prepareForColChange : M unit :=
  clearAddedEntry ;; turnOffSorting.

Definition cleanUpAfterColChange : M unit :=
  do c <- getThis;
  modify (set_dataStatus
            (fold_left (fun m entry => Map_set m (fst entry) new_DataStatus)
               (dataStatus c) (dataStatus c))) ;;
  modify (set_formControls []) ;;
  modify (set_oldColumns (map (fun col => Object_assign [] col) (columns c))) ;;
  modify (set_currentlyAdding false).

(** [checkForDifferences].  The callback of [some] reads [this.columns[i]]
    only after the lengths were found equal, so the index is in range. *)
Definition checkForDifferences_of (oldColumns columns : list props) : bool :=
  if negb (List.length oldColumns =? List.length columns)%nat then true
  else some_i
         (fun col i =>
            existsb
              (fun key =>
                 negb (strict_eq (get_prop col key)
                         (get_prop (default [] (columns !! i)) key)))
              (keys col))
         oldColumns.

Definition checkForDifferences : M bool :=
  do c <- getThis; ret (checkForDifferences_of (oldColumns c) (columns c)).

Definition ngDoCheck : M unit :=
  do changed <- checkForDifferences;
  if changed
  then prepareForColChange ;; recreateDataSource ;; cleanUpAfterColChange
  else ret tt.

End Methods.

(* ================================================================== *)
(** * The form-field builder ([AbstractFormField]) *)
(* ================================================================== *)

(** [Array.isArray(v)]. *)
Definition isArray (h : heap) (v : jsval) : bool :=
  match v with
  | VRef a => match okind <$> h !! a with
              | Some (KArray _) => true
              | _ => false
              end
  | _ => false
  end.

(** An array literal [[x1, ..., xn]]. *)
Definition new_array (l : list jsval) : M jsval :=
  do h <- getMem;
  let r := alloc (Obj (KArray l) []) h in
  putMem (snd r) ;; ret (fst r).

(** [this.k = x] on the receiver of a setter. *)
Definition assign_field (self : jsval) (k : string) (x : jsval) : M unit :=
  do h <- getMem;
  do h' <- orThrow (set_member h self k x);
  putMem h'.

(** [new AbstractFormField()] for the class numbered [cls]: the field
    initialisers run in the order of the declarations; [formType], [init]
    and [apply] have none. *)
Definition new_AbstractFormField (cls : nat) : M jsval :=
  do h <- getMem;
  let r := alloc (Obj (KObject cls) []) h in
  putMem (snd r) ;;
  let self := fst r in
  do validators <- new_array [];
  assign_field self "validators" validators ;;
  do errors <- new_array [];
  assign_field self "errors" errors ;;
  assign_field self "placeholder" (VStr "") ;;
  assign_field self "hint" (VStr "") ;;
  ret self.

Definition withValidators (self validators : jsval) : M jsval :=
  do h <- getMem;
  (if isArray h validators
   then assign_field self "validators" validators
   else do arr <- new_array [validators];
        assign_field self "validators" arr) ;;
  ret self.

Definition withInit (self initFn : jsval) : M jsval :=
  assign_field self "init" initFn ;; ret self.

Definition withApply (self applyFn : jsval) : M jsval :=
  assign_field self "apply" applyFn ;; ret self.

Definition withErrors (self errors : jsval) : M jsval :=
  assign_field self "errors" errors ;; ret self.

Definition withPlaceholder (self : jsval) (placeholder : string) : M jsval :=
  assign_field self "placeholder" (VStr placeholder) ;; ret self.

Definition withHint (self : jsval) (hint : string) : M jsval :=
  assign_field self "hint" (VStr hint) ;; ret self.

(* ================================================================== *)
(** * The methods the template calls *)
(* ================================================================== *)

(** Modelled from the spec: the enum [Align] (model/align.model) is not
    among the sources; the component compares an alignment with its
    members [LEFT] and [CENTER]. *)
Class AlignEnum := { Align_LEFT : jsval; Align_CENTER : jsval }.

(** What the JavaScript runtime provides to the sorting accessor:
    [toISOString] of a date, by its time value, and what an array of a
    given length has under a name that is none of its indices (its
    [length], a method it inherits, [undefined] for any other name). *)
Class Runtime := {
  toISOString : Z -> string;
  Array_named : nat -> string -> jsval
}.

(** [a && b], where evaluating [b] has no effect. *)
Definition js_and (a b : jsval) : jsval := if truthy a then b else a.

(** [typeof v === 'object']. *)
Definition typeof_object (v : jsval) : bool :=
  match v with
  | VNull | VRef _ => true
  | _ => false
  end.

(** The time value of [v] when [v instanceof Date]. *)
Definition date_time (h : heap) (v : jsval) : option Z :=
  match v with
  | VRef a => match okind <$> h !! a with
              | Some (KDate t) => Some t
              | _ => None
              end
  | _ => None
  end.


(** The index that a property key is, when it is the decimal numeral of
    one. *)
Definition canonical_index (s : string) : option nat :=
  n ← toNumber s;
  if String.eqb (toString_nat n) s then Some n else None.

(** The properties an array or a string has under its indices. *)
Definition index_entries {A} (f : A -> jsval) (l : list A) : props :=
  map_i (fun x i => (toString_nat i, f x)) l.

(** The own enumerable properties of a value, which are what
    [Object.assign] copies from a source: none for [undefined], [null],
    numbers and booleans (and functions, which carry no properties here),
    the characters of a string, the elements and then the named
    properties of an array, the properties of any other object. *)
Definition own_enumerable (h : heap) (v : jsval) : props :=
  match v with
  | VStr s =>
      index_entries (fun c => VStr (String c EmptyString))
        (list_ascii_of_string s)
  | VRef a =>
      match h !! a with
      | Some (Obj (KArray l) ps) => index_entries (fun x => x) l ++ ps
      | Some o => oprops o
      | None => []
      end
  | _ => []
  end.

Section TemplateMethods.
Context `{HostEnv} `{AlignEnum} `{Runtime}.

Definition isEditing (element : jsval) : M bool :=
  do c <- getThis;
  do status <- orThrow (Map_get (dataStatus c) element);
  ret (editing status).

Definition isEditingColumn (tcol : props) (element : jsval) : M jsval :=
  if truthy (get_prop tcol "formField")
  then do b <- isEditing element; ret (VBool b)
  else ret (get_prop tcol "formField").

Definition isButtonClickable (tcol : props) : jsval :=
  js_and (get_prop tcol "onClick") (get_prop tcol "button").

Definition isCellClickable (tcol : props) (element : jsval) : M jsval :=
  if truthy (js_and (get_prop tcol "onClick")
               (VBool (negb (truthy (get_prop tcol "button")))))
  then do b <- isEditing element; ret (VBool (negb b))
  else ret (js_and (get_prop tcol "onClick")
              (VBool (negb (truthy (get_prop tcol "button"))))).

Definition onClick (tcol : props) (element : jsval) (fromButton : bool)
  : M unit :=
  do clickable <- (if fromButton then ret (isButtonClickable tcol)
                   else isCellClickable tcol element);
  if truthy clickable
  then do p <- member element (get_prop tcol "property");
       call (get_prop tcol "onClick") [p; element] ;;
       ret tt
  else ret tt.

Definition getAlign (align : jsval) : string :=
  if strict_eq align Align_LEFT then "flex-start"
  else if strict_eq align Align_CENTER then "center"
  else "flex-end".

Definition getTextAlign (align : jsval) : string :=
  if strict_eq align Align_LEFT then "start"
  else if strict_eq align Align_CENTER then "center"
  else "end".

Definition isCenterAlign (tcol : props) : bool :=
  strict_eq (get_prop tcol "align") Align_CENTER.



(** [getCellCssStyle], likewise. *)
Definition getCellCssStyle (tcol : props) (element : jsval) : M props :=
  let defaultStyle :=
    [("justify-content", VStr (getAlign (get_prop tcol "align")));
     ("display", VStr "flex")] in
  if truthy (get_prop tcol "ngStyle")
  then do p <- member element (get_prop tcol "property");
       do r <- call (get_prop tcol "ngStyle") [p; element];
       do h <- getMem;
       ret (Object_assign defaultStyle (own_enumerable h r))
  else ret defaultStyle.

(** [visibleCols[key]] in the sorting accessor, as far as the accessor
    tells the results apart: the column at an index, nothing where the
    array has [undefined] or another falsy value, and for any other value
    an object without any of a column's properties. *)
Definition visibleCols_at (visibleCols : list props) (key : string)
  : option props :=
  match canonical_index key with
  | Some n => visibleCols !! n
  | None =>
      if truthy (Array_named (List.length visibleCols) key) then Some []
      else None
  end.

(** The sorting accessor that [recreateDataSource] installs when
    [sorting] is on; [visibleCols] is the array it closed over. *)
Definition sortingDataAccessor (visibleCols : list props) (data : jsval)
    (sortHeaderId : string) : M jsval :=
  match visibleCols_at visibleCols
          (default "" (split "_" sortHeaderId !! 0)) with
  | None => ret (VStr "")
  | Some tcol =>
      if truthy (get_prop tcol "sortTransform")
      then do p <- member data (get_prop tcol "property");
           call (get_prop tcol "sortTransform") [p; data]
      else
        do p <- member data (get_prop tcol "property");
        do h <- getMem;
        match date_time h p with
        | Some t => ret (VStr (toISOString t))
        | None =>
            if truthy (get_prop tcol "transform") && typeof_object p
            then call (get_prop tcol "transform") [p]
            else ret p
        end
  end.

End TemplateMethods.

(* ================================================================== *)
(** * Vocabulary of the statements *)
(* ================================================================== *)

(** ** Dirty checking *)

(** The columns differ from the saved copies, reading the properties off
    the columns: the arrays have different lengths, or a column has a
    property whose value is not the saved copy's value for it. *)
Definition differs_on_column_keys (current saved : list props) : Prop :=
  List.length current <> List.length saved \/
  exists (i : nat) (col copy : props) (key : string),
    current !! i = Some col /\ saved !! i = Some copy /\
    In key (keys col) /\
    strict_eq (get_prop col key) (get_prop copy key) = false.

(** The same, reading the properties off the saved copies. *)
Definition differs_on_saved_keys (current saved : list props) : Prop :=
  List.length current <> List.length saved \/
  exists (i : nat) (col copy : props) (key : string),
    current !! i = Some col /\ saved !! i = Some copy /\
    In key (keys copy) /\
    strict_eq (get_prop copy key) (get_prop col key) = false.

(** A run of [m] on [w] that constructs a data source: it returns, and the
    component then holds a data source with the identity that was next. *)
Definition rebuilds (m : M unit) (w : World) : Prop :=
  exists (w' : World) (ds : MatTableDataSource),
    m w = Some (tt, w') /\
    dataSource (this w') = Some ds /\ ds_id ds = nextId (this w) /\
    nextId (this w') = S (nextId (this w)).

(** ** The row-status map and the reachable worlds *)

(** The number of entries of a row-status map that carry [added]. *)
Definition count_added (m : list (jsval * DataStatus)) : nat :=
  List.length (List.filter (fun entry => added (snd entry)) m).

(** What [clearAddedEntry] leaves of the row-status map. *)
Definition cleared_statuses (c : Component) : list (jsval * DataStatus) :=
  let r := clearAdded_loop (dataStatus c) (VUndefined, data c) in
  if truthy (fst r) then Map_delete (dataStatus c) (fst r) else dataStatus c.

(** A component as its field initialisers leave it, whatever is bound to
    its inputs. *)
Definition initial (w : World) : Prop :=
  displayedColumns (this w) = [] /\ dataSource (this w) = None /\
  currentlyAdding (this w) = false /\ dataStatus (this w) = [] /\
  oldColumns (this w) = [] /\ formControls (this w) = [].

(** One step of the life of the component: a hook or a method runs to its
    end, or the page acts (it rebinds an input, edits the data array or a
    column, types into a control, sorts), which leaves the private fields
    [dataStatus] and [oldColumns] alone. *)
Inductive step `{HostEnv} : World -> World -> Prop :=
  | step_ngOnInit w w' :
      ngOnInit w = Some (tt, w') -> step w w'
  | step_ngOnChanges changes w w' :
      ngOnChanges changes w = Some (tt, w') -> step w w'
  | step_ngDoCheck w w' :
      ngDoCheck w = Some (tt, w') -> step w w'
  | step_applyFilter filterValue w w' :
      applyFilter filterValue w = Some (tt, w') -> step w w'
  | step_getFormControl rowIndex colIndex tcol element control w w' :
      getFormControl rowIndex colIndex tcol element w = Some (control, w') ->
      step w w'
  | step_startAddElement w w' :
      startAddElement w = Some (tt, w') -> step w w'
  | step_saveElement rowIndex oldElement w w' :
      saveElement rowIndex oldElement w = Some (tt, w') -> step w w'
  | step_startEditElement element w w' :
      startEditElement element w = Some (tt, w') -> step w w'
  | step_cancelEditElement element w w' :
      cancelEditElement element w = Some (tt, w') -> step w w'
  | step_page w w' :
      dataStatus (this w') = dataStatus (this w) ->
      oldColumns (this w') = oldColumns (this w) ->
      step w w'.

Inductive reachable `{HostEnv} : World -> Prop :=
  | reachable_initial w : initial w -> reachable w
  | reachable_step w w' : reachable w -> step w w' -> reachable w'.

(** ** The filter *)





(** ** Copies and what is left of the heap *)





(** What a computation leaves of the component and of the event log. *)
Definition keeps_this {A} (m : M A) : Prop :=
  forall (w : World) (a : A) (w' : World),
    m w = Some (a, w') -> this w' = this w /\ out w' = out w.




(** [v], read in the heap [h0], nests objects more than [n] deep: there
    is a chain of [n + 1] objects, each under a property of the one
    before, that starts at [v]. *)
Inductive depth_gt (h0 : heap) : nat -> jsval -> Prop :=
  | depth_gt_O a c ps :
      h0 !! a = Some (Obj (KObject c) ps) -> depth_gt h0 0 (VRef a)
  | depth_gt_S n a c ps k :
      h0 !! a = Some (Obj (KObject c) ps) ->
      In k (keys ps) ->
      depth_gt h0 n (get_prop ps k) ->
      depth_gt h0 (S n) (VRef a).

(** Between the worlds [w] and [w'] the field [k] of the object [self]
    has been set to [x], and nothing else has happened to the objects
    that [w] had, to the component or to the event log. *)
Definition writes_field (self : jsval) (k : string) (x : jsval)
    (w w' : World) : Prop :=
  get_member (mem w') self k = Some x /\
  (forall k' : string,
      k' <> k -> get_member (mem w') self k' = get_member (mem w) self k') /\
  (forall (b : nat) (o : obj),
      VRef b <> self -> mem w !! b = Some o -> mem w' !! b = Some o) /\
  this w' = this w /\ out w' = out w.



(* ================================================================== *)
(** * A concrete host and sample worlds *)
(* ================================================================== *)

(** A host whose constructors set nothing; its function [0] allocates an
    empty object (a [create]), function [1] returns its first argument
    (an [init], an [apply]), and any other function returns the string
    ['x'] (a [transform]).  Its sort puts the rows in the opposite order
    when the direction is ['desc'], and leaves them as they are
    otherwise. *)
Definition sample_host : HostEnv :=
  {| construct := fun _ => Some [];
     host_call := fun f args h =>
       match f with
       | 0 => alloc (Obj (KObject 0) []) h
       | 1 => (List.hd VUndefined args, h)
       | _ => (VStr "x", h)
       end;
     obj_toString := fun _ _ => "[object Object]";
     number_toString := fun _ => "1e+21";
     sortData := fun _ h rows sort =>
       (if String.eqb (direction sort) "desc" then rev rows else rows, h);
     sortData_permutes := fun _ _ rows sort =>
       match String.eqb (direction sort) "desc" as b
         return Permutation (if b then rev rows else rows) rows
       with
       | true => Permutation_sym (Permutation_rev rows)
       | false => Permutation_refl rows
       end;
     stack_depth := 16 |}.

(** An [Align] whose members are numbered from zero. *)
Definition sample_align : AlignEnum :=
  {| Align_LEFT := VNum 0; Align_CENTER := VNum 1 |}.

(** A runtime that prints a date as its time value, and whose arrays have
    a [length] and nothing else under a name. *)
Definition sample_runtime : Runtime :=
  {| toISOString := toString_Z;
     Array_named := fun len name =>
       if String.eqb name "length" then VNum (Z.of_nat len)
       else VUndefined |}.

(** A component that has not been used yet, with no inputs bound. *)
Definition new_Component : Component :=
  {| data := []; columns := []; paginator := false; sorting := false;
     editable := false; addable := false; deletable := false;
     create := VUndefined; displayedColumns := []; dataSource := None;
     currentlyAdding := false; dataStatus := []; oldColumns := [];
     formControls := []; matSort := {| active := ""; direction := "" |};
     nextId := 0 |}.

Definition set_columns (cols : list props) (c : Component) : Component :=
  {| data := data c; columns := cols; paginator := paginator c;
     sorting := sorting c; editable := editable c; addable := addable c;
     deletable := deletable c; create := create c;
     displayedColumns := displayedColumns c; dataSource := dataSource c;
     currentlyAdding := currentlyAdding c; dataStatus := dataStatus c;
     oldColumns := oldColumns c; formControls := formControls c;
     matSort := matSort c; nextId := nextId c |}.

(** A page whose heap holds one object, which refers to itself. *)
Definition world_cyclic : World :=
  {| this := new_Component;
     mem := [Obj (KObject 0) [("self", VRef 0)]];
     out := [] |}.

(** A table whose single column has a width that is [NaN], before the
    first check. *)
Definition world_nan_column : World :=
  {| this := set_columns [[("name", VStr "Name"); ("width", VNaN)]]
               new_Component;
     mem := []; out := [] |}.

(** Two rows, each with a name and a date of birth, and the form field of
    the name column, whose [apply] is the host function [1]. *)
Definition sample_heap : heap :=
  [ Obj (KObject 0) [("name", VStr "Ada"); ("born", VRef 1)];
    Obj (KDate 0) [];
    Obj (KObject 0) [("name", VStr "Bob"); ("born", VRef 3)];
    Obj (KDate 1000) [];
    Obj (KObject 1) [("apply", VFun 1)] ].

Definition name_column : props :=
  [("name", VStr "Name"); ("property", VStr "name");
   ("visible", VBool true); ("formField", VRef 4)].

(** The component with its inputs bound, before any hook has run. *)
Definition world_bound : World :=
  {| this :=
       {| data := [VRef 0; VRef 2]; columns := [name_column];
          paginator := false; sorting := false; editable := true;
          addable := true; deletable := false; create := VFun 0;
          displayedColumns := []; dataSource := None;
          currentlyAdding := false; dataStatus := []; oldColumns := [];
          formControls := [];
          matSort := {| active := ""; direction := "" |}; nextId := 0 |};
     mem := sample_heap; out := [] |}.

(** The same component with [sorting] switched on. *)
Definition world_sorting : World :=
  {| this :=
       {| data := [VRef 0; VRef 2]; columns := [name_column];
          paginator := false; sorting := true; editable := true;
          addable := true; deletable := false; create := VFun 0;
          displayedColumns := []; dataSource := None;
          currentlyAdding := false; dataStatus := []; oldColumns := [];
          formControls := [];
          matSort := {| active := ""; direction := "" |}; nextId := 0 |};
     mem := sample_heap; out := [] |}.

(** The world a computation leaves, [w] itself if it throws. *)
Definition after {A} (m : M A) (w : World) : World :=
  match m w with
  | Some (_, w') => w'
  | None => w
  end.

(** After the first [ngOnChanges] and [ngDoCheck]. *)
Definition world_loaded : World :=
  Eval vm_compute in
    after (@ngDoCheck sample_host)
      (after (@ngOnChanges sample_host
                {| changes_data := true; changes_columns := true |})
         world_bound).

(** The loaded table after the page has given its column a [width]. *)
Definition world_width_added : World :=
  {| this := set_columns [name_column ++ [("width", VStr "10px")]]
               (this world_loaded);
     mem := mem world_loaded; out := out world_loaded |}.

(** The table with sorting, loaded, after a click on the header of its
    column has put a descending sort on it. *)
Definition world_sorted_desc : World :=
  Eval vm_compute in
    let w := after (@ngDoCheck sample_host)
               (after (@ngOnChanges sample_host
                         {| changes_data := true; changes_columns := true |})
                  world_sorting) in
    {| this := set_matSort {| active := "0_name"; direction := "desc" |}
                 (this w);
       mem := mem w; out := out w |}.

(** The page binds another array to the [data] input; the data source
    keeps the array it was built on. *)
Definition rebind_data (rows : list jsval) (w : World) : World :=
  {| this :=
       set_data rows
         (set_dataSource
            ((fun ds =>
                {| ds_id := ds_id ds;
                   ds_data := Some (ds_rows (this w) ds);
                   ds_filter := ds_filter ds;
                   ds_paginator := ds_paginator ds; ds_sort := ds_sort ds;
                   ds_sortCols := ds_sortCols ds |})
             <$> dataSource (this w))
            (this w));
     mem := mem w; out := out w |}.



(** The page types [v] into the control with the id [id], which makes it
    valid or not. *)
Definition type_into (id : string) (v : jsval) (ok : bool) (w : World)
  : World :=
  {| this :=
       set_formControls
         (map (fun entry =>
                 if String.eqb (fst entry) id
                 then (fst entry,
                       {| ctl_id := ctl_id (snd entry); value := v;
                          valid := ok |})
                 else entry)
            (formControls (this w)))
         (this w);
     mem := mem w; out := out w |}.

(** Then the first row is put into editing, the template asks for the
    control of its name cell, and the page types "Eve" into it. *)
Definition world_editing : World :=
  Eval vm_compute in
    type_into "0_0" (VStr "Eve") true
      (after (@getFormControl sample_host 0 0 name_column (VRef 0))
         (after (startEditElement (VRef 0)) world_loaded)).

(** The pending row of [world_adding] has been saved, and the page has
    bound a new data array: the rows and, at the end, the copy that the
    [add] event carried. *)
Definition world_saved_rebound : World :=
  Eval vm_compute in
    let w := after (@saveElement sample_host 0 (VRef 5))
               (after (@startAddElement sample_host) world_loaded) in
    rebind_data (data (this w) ++ [VRef 6]) w.

(** The loaded table with a third row in the heap, whose name is a boxed
    value that is disabled. *)
Definition world_boxed : World :=
  {| this := this world_loaded;
     mem := mem world_loaded
            ++ [Obj (KObject 0) [("value", VStr "Ann");
                                 ("disabled", VBool true)];
                Obj (KObject 0) [("name", VRef 5)]];
     out := out world_loaded |}.

(** The same, with the cell emptied, which its validators refuse. *)
Definition world_invalid : World :=
  Eval vm_compute in type_into "0_0" (VStr "") false world_editing.

(** After [startAddElement] on the loaded table. *)
Definition world_adding : World :=
  Eval vm_compute in after (@startAddElement sample_host) world_loaded.

(** While the added row of [world_adding] is pending, the page binds a
    new data array, which has the two rows of the table. *)
Definition world_adding_rebound : World :=
  Eval vm_compute in rebind_data [VRef 0; VRef 2] world_adding.

(** Eleven rows, and the form field of their name column. *)
Definition eleven_rows : heap :=
  map (fun i => Obj (KObject 0) [("name", VStr (toString_nat i))]) (seq 0 11)
  ++ [Obj (KObject 1) []].

Definition eleven_rows_column : props :=
  [("name", VStr "Name"); ("property", VStr "name");
   ("visible", VBool true); ("formField", VRef 11)].

Definition world_eleven_bound : World :=
  {| this :=
       {| data := map VRef (seq 0 11); columns := [eleven_rows_column];
          paginator := false; sorting := false; editable := true;
          addable := false; deletable := false; create := VUndefined;
          displayedColumns := []; dataSource := None;
          currentlyAdding := false; dataStatus := []; oldColumns := [];
          formControls := [];
          matSort := {| active := ""; direction := "" |}; nextId := 0 |};
     mem := eleven_rows; out := [] |}.

(** The rows 1 and 10 are put into editing, the template asks for the
    controls of their name cells, and the page types "Bea" into the one of
    row 1 and "Kay" into the one of row 10. *)
Definition world_eleven_loaded : World :=
  Eval vm_compute in
    after (@ngDoCheck sample_host)
      (after (@ngOnChanges sample_host
                {| changes_data := true; changes_columns := true |})
         world_eleven_bound).

Definition world_eleven_editing : World :=
  Eval vm_compute in
    after (@getFormControl sample_host 10 0 eleven_rows_column (VRef 10))
      (after (@getFormControl sample_host 1 0 eleven_rows_column (VRef 1))
         (after (startEditElement (VRef 10))
            (after (startEditElement (VRef 1)) world_eleven_loaded))).

Definition world_rows_1_and_10 : World :=
  Eval vm_compute in
    type_into "10_0" (VStr "Kay") true
      (type_into "1_0" (VStr "Bea") true world_eleven_editing).

(** The heap of the sample table after [new AbstractFormField()]: the new
    form field is the object at address 5. *)
Definition world_with_field : World :=
  Eval vm_compute in after (new_AbstractFormField 1) world_bound.

(* ================================================================== *)
(** * Basic facts *)
(* ================================================================== *)

Ltac case_if :=
  match goal with
  | |- context [if ?b then _ else _] => destruct b eqn:?
  end.

Ltac unfold_M :=
  unfold bind, ret, throw, getThis, getMem, modify, putMem, emit, orThrow in *.

(** ** Dirty checking *)

Lemma some_from_spec {A} (p : A -> nat -> bool) (l : list A) (i : nat) :
  some_from i p l = true <->
  exists (j : nat) (x : A), l !! j = Some x /\ p x (i + j) = true.
Proof.
  revert i. induction l as [|y l IH]; intros i; simpl.
  - split; [discriminate | intros (j & x & Hj & _); discriminate].
  - rewrite orb_true_iff, IH. split.
    + intros [Hy | (j & x & Hj & Hp)].
      * exists 0, y. rewrite Nat.add_0_r. auto.
      * exists (S j), x. rewrite Nat.add_succ_r. auto.
    + intros (j & x & Hj & Hp). destruct j as [|j]; simpl in Hj.
      * left. rewrite Nat.add_0_r in Hp. congruence.
      * right. exists j, x. rewrite Nat.add_succ_r in Hp. auto.
Qed.

Lemma checkForDifferences_of_spec (old cur : list props) :
  checkForDifferences_of old cur = true <-> differs_on_saved_keys cur old.
Proof.
  unfold checkForDifferences_of, differs_on_saved_keys.
  destruct (Nat.eqb_spec (List.length old) (List.length cur)) as [E|E]; simpl.
  - unfold some_i. rewrite some_from_spec. split.
    + intros (j & copy & Hj & Hex). right.
      apply existsb_exists in Hex as (key & Hkey & Hne).
      apply negb_true_iff in Hne. simpl in Hne.
      destruct (lookup_lt_is_Some_2 cur j) as [col Hcol].
      { rewrite <- E. eapply lookup_lt_Some; eauto. }
      rewrite Hcol in Hne. simpl in Hne.
      exists j, col, copy, key. auto.
    + intros [Hlen | (j & col & copy & key & Hcol & Hcopy & Hkey & Hne)];
        [congruence|].
      exists j, copy. split; [assumption|].
      apply existsb_exists. exists key. split; [assumption|].
      simpl. rewrite Hcol. simpl. rewrite Hne. reflexivity.
  - split; [intros _; left; congruence | reflexivity].
Qed.

(** ** Maps *)

Section JsMapFacts.
Context {K V : Type} `{EqDecision K}.

Lemma Map_get_set_eq (m : list (K * V)) (k : K) (v : V) :
  Map_get (Map_set m k v) k = Some v.
Proof.
  induction m as [|[k' v'] m IH]; simpl.
  - destruct (decide (k = k)); congruence.
  - destruct (decide (k' = k)); simpl.
    + destruct (decide (k = k)); congruence.
    + destruct (decide (k' = k)); congruence.
Qed.

Lemma Map_get_set_ne (m : list (K * V)) (k k' : K) (v : V) :
  k <> k' -> Map_get (Map_set m k v) k' = Map_get m k'.
Proof.
  intros Hne. induction m as [|[k0 v0] m IH]; simpl.
  - destruct (decide (k = k')); congruence.
  - destruct (decide (k0 = k)); simpl.
    + subst. destruct (decide (k = k')); congruence.
    + destruct (decide (k0 = k')); congruence.
Qed.

Lemma Map_get_In (m : list (K * V)) (k : K) (v : V) :
  Map_get m k = Some v -> In (k, v) m.
Proof.
  induction m as [|[k' v'] m IH]; simpl; [discriminate|].
  destruct (decide (k' = k)); [intros [= ->]; subst; auto | auto].
Qed.

Lemma In_Map_set (m : list (K * V)) (k k' : K) (v v' : V) :
  In (k, v) (Map_set m k' v') -> In (k, v) m \/ (k = k' /\ v = v').
Proof.
  induction m as [|[k0 v0] m IH]; simpl.
  - intros [[= <- <-]|[]]. auto.
  - destruct (decide (k0 = k')); simpl.
    + intros [[= <- <-]|Hin]; auto.
    + intros [Heq|Hin]; [auto|]. destruct (IH Hin); auto.
Qed.

End JsMapFacts.

(** ** The row-status map *)

(** The map that [cleanUpAfterDataChange] builds from the rows. *)
Lemma fresh_statuses_keep (l : list jsval) (m : list (jsval * DataStatus))
    (e : jsval) :
  Map_get m e = Some new_DataStatus ->
  Map_get (fold_left (fun m d => Map_set m d new_DataStatus) l m) e
  = Some new_DataStatus.
Proof.
  revert m. induction l as [|d l IH]; intros m Hm; simpl; [assumption|].
  apply IH. destruct (decide (d = e)) as [->|Hne].
  - apply Map_get_set_eq.
  - rewrite Map_get_set_ne; assumption.
Qed.

Lemma fresh_statuses_get (l : list jsval) (m : list (jsval * DataStatus))
    (e : jsval) :
  In e l ->
  Map_get (fold_left (fun m d => Map_set m d new_DataStatus) l m) e
  = Some new_DataStatus.
Proof.
  revert m. induction l as [|d l IH]; intros m Hin; simpl; [destruct Hin|].
  destruct (decide (d = e)) as [->|Hne].
  - apply fresh_statuses_keep, Map_get_set_eq.
  - destruct Hin as [?|Hin]; [congruence|]. apply IH; assumption.
Qed.

Lemma fresh_statuses_In (l : list jsval) (m : list (jsval * DataStatus))
    (k : jsval) (st : DataStatus) :
  In (k, st) (fold_left (fun m d => Map_set m d new_DataStatus) l m) ->
  In (k, st) m \/ (In k l /\ st = new_DataStatus).
Proof.
  revert m. induction l as [|d l IH]; intros m Hin; simpl in *; [auto|].
  destruct (IH _ Hin) as [Hm|[Hl ->]]; [|auto].
  destruct (In_Map_set _ _ _ _ _ Hm) as [?|[-> ->]]; auto.
Qed.

(** ** What a computation leaves of the component *)

Lemma keeps_this_ret {A} (a : A) : keeps_this (ret a).
Proof. intros w a' w' [= <- <-]. auto. Qed.

Lemma keeps_this_throw {A} : keeps_this (@throw A).
Proof. intros w a w' [=]. Qed.

Lemma keeps_this_bind {A B} (m : M A) (k : A -> M B) :
  keeps_this m -> (forall a, keeps_this (k a)) -> keeps_this (bind m k).
Proof.
  intros Hm Hk w b w'. unfold bind.
  destruct (m w) as [[a w1]|] eqn:E; [|discriminate].
  intros Hrun. destruct (Hm _ _ _ E) as [E1 E2].
  destruct (Hk _ _ _ _ Hrun) as [E3 E4]. split; congruence.
Qed.

Lemma keeps_this_getThis : keeps_this getThis.
Proof. intros w a w' [= <- <-]. auto. Qed.

Lemma keeps_this_getMem : keeps_this getMem.
Proof. intros w a w' [= <- <-]. auto. Qed.

Lemma keeps_this_putMem (h : heap) : keeps_this (putMem h).
Proof. intros w a w' [= <- <-]. auto. Qed.

Lemma keeps_this_orThrow {A} (o : option A) : keeps_this (orThrow o).
Proof. intros w a w'. unfold orThrow. destruct o; intros [= <- <-]; auto. Qed.

Lemma keeps_this_forEach {A} (l : list A) (body : A -> M unit) :
  (forall x, keeps_this (body x)) -> keeps_this (forEach l body).
Proof.
  intros Hbody. induction l as [|x l IH]; simpl.
  - apply keeps_this_ret.
  - apply keeps_this_bind; auto.
Qed.

Lemma keeps_this_if {A} (b : bool) (m1 m2 : M A) :
  keeps_this m1 -> keeps_this m2 -> keeps_this (if b then m1 else m2).
Proof. destruct b; auto. Qed.

Create HintDb keeps discriminated.
#[export] Hint Resolve keeps_this_ret keeps_this_throw keeps_this_getThis
  keeps_this_getMem keeps_this_putMem keeps_this_orThrow keeps_this_if : keeps.

Ltac keeps :=
  repeat first
    [ apply keeps_this_bind; [|intros ?]
    | apply keeps_this_if
    | apply keeps_this_forEach; intros ?
    | solve [auto with keeps] ].

Section KeepsThis.
Context `{HostEnv}.

Lemma keeps_this_call (f : jsval) (args : list jsval) :
  keeps_this (call f args).
Proof. unfold call. destruct f; keeps. Qed.

Lemma keeps_this_member (o p : jsval) : keeps_this (member o p).
Proof. unfold member. keeps. Qed.

Lemma keeps_this_assign_member (o p x : jsval) :
  keeps_this (assign_member o p x).
Proof. unfold assign_member. keeps. Qed.

Lemma keeps_this_deepCopy (obj : jsval) : keeps_this (deepCopy obj).
Proof. unfold deepCopy. keeps. Qed.

End KeepsThis.

#[export] Hint Resolve keeps_this_call keeps_this_member
  keeps_this_assign_member keeps_this_deepCopy : keeps.

(** ** Counting the added entries *)

Lemma count_added_Map_set_fresh (m : list (jsval * DataStatus)) (k : jsval) :
  count_added (Map_set m k new_DataStatus) <= count_added m.
Proof.
  unfold count_added. induction m as [|[k' st] m IH]; simpl; [lia|].
  destruct (decide (k' = k)); simpl; destruct (added st); simpl; lia.
Qed.

Lemma count_added_Map_delete (m : list (jsval * DataStatus)) (k : jsval) :
  count_added (Map_delete m k) <= count_added m.
Proof.
  unfold count_added. induction m as [|[k' st] m IH]; simpl; [lia|].
  destruct (decide (k' = k)); simpl; destruct (added st); simpl; lia.
Qed.

Lemma count_added_Map_set_same (m : list (jsval * DataStatus)) (k : jsval)
    (st : DataStatus) :
  added st = added (default new_DataStatus (Map_get m k)) ->
  count_added (Map_set m k st) = count_added m.
Proof.
  unfold count_added. induction m as [|[k' st'] m IH]; simpl.
  - intros ->. reflexivity.
  - destruct (decide (k' = k)); simpl.
    + intros ->. destruct (added st'); reflexivity.
    + intros Hst. destruct (added st'); simpl; rewrite IH; auto.
Qed.

Lemma count_added_Map_set_le (m : list (jsval * DataStatus)) (k : jsval)
    (st : DataStatus) :
  count_added (Map_set m k st) <= S (count_added m).
Proof.
  unfold count_added. induction m as [|[k' st'] m IH]; simpl.
  - destruct (added st); simpl; lia.
  - destruct (decide (k' = k)); simpl;
      destruct (added st'), (added st); simpl; lia.
Qed.

Lemma count_added_fresh_statuses (l : list jsval)
    (m : list (jsval * DataStatus)) :
  count_added (fold_left (fun m d => Map_set m d new_DataStatus) l m)
  <= count_added m.
Proof.
  revert m. induction l as [|d l IH]; intros m; simpl; [lia|].
  etransitivity; [apply IH | apply count_added_Map_set_fresh].
Qed.

Lemma count_added_reset (l m : list (jsval * DataStatus)) :
  count_added
    (fold_left (fun m entry => Map_set m (fst entry) new_DataStatus) l m)
  <= count_added m.
Proof.
  revert m. induction l as [|d l IH]; intros m; simpl; [lia|].
  etransitivity; [apply IH | apply count_added_Map_set_fresh].
Qed.

(** ** Clearing the pending entry *)

Lemma clearAdded_loop_filter (entries : list (jsval * DataStatus))
    (start : jsval * list jsval) :
  clearAdded_loop entries start
  = clearAdded_loop (List.filter (fun entry => added (snd entry)) entries)
      start.
Proof.
  unfold clearAdded_loop. revert start.
  induction entries as [|[k st] entries IH]; intros start; simpl;
    [reflexivity|].
  destruct (added st) eqn:Hst; simpl; [rewrite Hst|]; apply IH.
Qed.

Lemma only_added_entry (m : list (jsval * DataStatus)) (k : jsval)
    (st : DataStatus) :
  count_added m <= 1 -> In (k, st) m -> added st = true ->
  List.filter (fun entry => added (snd entry)) m = [(k, st)].
Proof.
  intros Hle Hin Hst. unfold count_added in Hle.
  assert (Hf : In (k, st) (List.filter (fun entry => added (snd entry)) m))
    by (apply filter_In; auto).
  destruct (List.filter _ m) as [|x [|y l]]; simpl in *;
    [destruct Hf | | lia].
  destruct Hf as [->|[]]. reflexivity.
Qed.

Lemma clearAdded_loop_pending (m : list (jsval * DataStatus))
    (rows : list jsval) (ele : jsval) (st : DataStatus) :
  count_added m <= 1 -> In (ele, st) m -> added st = true ->
  clearAdded_loop m (VUndefined, rows)
  = (ele, splice1 (array_indexOf rows ele) rows).
Proof.
  intros Hle Hin Hst. rewrite clearAdded_loop_filter.
  rewrite (only_added_entry m ele st) by assumption.
  unfold clearAdded_loop. simpl. rewrite Hst. reflexivity.
Qed.

(** ** Strings *)


Lemma startsWith_app (p s : string) : startsWith (p +:+ s) p = true.
Proof.
  induction p as [|a p IH]; simpl; [destruct s; reflexivity|].
  rewrite Ascii.eqb_refl. exact IH.
Qed.








Lemma append_empty_r (a : string) : a +:+ "" = a.
Proof.
  induction a as [|x a IH]; [reflexivity|].
  change (String x (a +:+ "") = String x a). rewrite IH. reflexivity.
Qed.

(** ** Properties of objects *)

Lemma get_prop_set_prop_eq (ps : props) (k : string) (v : jsval) :
  get_prop (set_prop ps k v) k = v.
Proof.
  induction ps as [|[k' v'] ps IH]; simpl.
  - rewrite String.eqb_refl. reflexivity.
  - destruct (String.eqb k' k) eqn:E; simpl.
    + rewrite String.eqb_refl. reflexivity.
    + rewrite E. exact IH.
Qed.

Lemma get_prop_set_prop_ne (ps : props) (k k' : string) (v : jsval) :
  k <> k' -> get_prop (set_prop ps k v) k' = get_prop ps k'.
Proof.
  intros Hne. induction ps as [|[k0 v0] ps IH]; simpl.
  - destruct (String.eqb_spec k k'); [contradiction | reflexivity].
  - destruct (String.eqb_spec k0 k) as [->|Hk]; simpl.
    + destruct (String.eqb_spec k k'); [contradiction | reflexivity].
    + destruct (String.eqb_spec k0 k'); [reflexivity | exact IH].
Qed.

(** ** [deepCopy] *)

Section DeepCopy.
Context `{HostEnv}.


Lemma foldl_deepCopy_prop_None
    (rec : jsval -> heap -> option (jsval * heap)) (obj clonedObj : jsval)
    (ks : list string) :
  foldl (deepCopy_prop rec obj clonedObj) None ks = None.
Proof. induction ks as [|k ks IH]; simpl; [reflexivity | exact IH]. Qed.

(** A call of [deepCopy] keeps the objects it finds and the addresses in
    use. *)
Lemma deepCopy_fuel_frame (n : nat) :
  forall (v : jsval) (h : heap) (v' : jsval) (h' : heap),
    deepCopy_fuel n v h = Some (v', h') ->
    List.length h <= List.length h' /\
    forall b, b < List.length h -> h' !! b = h !! b.
Proof.
  induction n as [|n IH]; intros v h v' h' Hrun;
    (destruct v as [| | | | | | |a|]; try (injection Hrun as <- <-; auto));
    simpl in Hrun;
    (destruct (h !! a) as [[[c|l|t] ps]|] eqn:Ha; simpl in Hrun;
     try discriminate;
     try (injection Hrun as <- <-; rewrite length_app; simpl;
          split; [lia | intros b Hb; apply lookup_app_l; exact Hb])).
  destruct (constructor_of c ps) as [c'|]; [|discriminate]. simpl in Hrun.
  destruct (construct c') as [fields|]; [|discriminate]. simpl in Hrun.
  destruct (foldl _ _ _) as [hf|] eqn:Hloop; [|discriminate].
  simpl in Hrun. injection Hrun as <- <-.
  assert (Hfold : forall ks hc hf,
            List.length h < List.length hc ->
            foldl (deepCopy_prop (deepCopy_fuel n) (VRef a)
                     (VRef (List.length h))) (Some hc) ks = Some hf ->
            List.length hc <= List.length hf /\
            forall b, b < List.length h -> hf !! b = hc !! b).
  { clear Hloop hf. induction ks as [|k ks IHks]; intros hc hf Hlen Hloop.
    - simpl in Hloop. injection Hloop as <-. auto.
    - cbn [foldl] in Hloop.
      destruct (deepCopy_prop (deepCopy_fuel n) (VRef a)
                  (VRef (List.length h)) (Some hc) k) as [hc1|] eqn:Hstep;
        [|rewrite foldl_deepCopy_prop_None in Hloop; discriminate].
      unfold deepCopy_prop in Hstep. simpl in Hstep.
      destruct (hc !! a) as [oa|]; [|discriminate]. simpl in Hstep.
      destruct (deepCopy_fuel n (get_prop (oprops oa) k) hc)
        as [[r hr]|] eqn:Hrec; [|discriminate].
      simpl in Hstep.
      destruct (hr !! List.length h) as [oc|]; [|discriminate].
      simpl in Hstep. injection Hstep as <-.
      destruct (IH _ _ _ _ Hrec) as [Hlen1 Hkeep1].
      assert (Hlen' : List.length h
                      < List.length
                          (<[List.length h :=
                               Obj (okind oc) (set_prop (oprops oc) k r)]> hr))
        by (rewrite length_insert; lia).
      destruct (IHks _ _ Hlen' Hloop) as [Hlen2 Hkeep2].
      rewrite length_insert in Hlen2.
      split; [lia|]. intros b Hb. rewrite Hkeep2 by exact Hb.
      rewrite list_lookup_insert_ne by lia. apply Hkeep1. lia. }
  assert (Hlen0 : List.length h
                  < List.length (h ++ [Obj (KObject c') fields]))
    by (rewrite length_app; simpl; lia).
  destruct (Hfold _ _ _ Hlen0 Hloop) as [Hlen Hkeep].
  rewrite length_app in Hlen. simpl in Hlen.
  split; [lia|]. intros b Hb. rewrite Hkeep by exact Hb.
  apply lookup_app_l. exact Hb.
Qed.







End DeepCopy.

(** ** What [deepCopy] returns *)



(** ** The ids of the form controls *)

Lemma split_digits (d : Decimal.uint) (s : string) :
  split "_" (NilEmpty.string_of_uint d +:+ s)
  = (NilEmpty.string_of_uint d +:+ hd "" (split "_" s)) :: tl (split "_" s).
Proof.
  induction d as [|d IH|d IH|d IH|d IH|d IH|d IH|d IH|d IH|d IH|d IH];
    [destruct s as [|c s]; simpl; [reflexivity|];
     destruct (Ascii.eqb c "_"); [reflexivity|];
     destruct (split "_" s); reflexivity|..];
    cbn [NilEmpty.string_of_uint];
    match goal with
    | |- split _ (String ?c ?t +:+ s) = _ =>
        change (String c t +:+ s) with (String c (t +:+ s))
    end;
    cbn [split]; rewrite IH; reflexivity.
Qed.

Lemma split_digits_only (d : Decimal.uint) :
  split "_" (NilEmpty.string_of_uint d) = [NilEmpty.string_of_uint d].
Proof.
  rewrite <- (append_empty_r (NilEmpty.string_of_uint d)) at 1.
  rewrite split_digits. simpl. rewrite append_empty_r. reflexivity.
Qed.

Lemma split_control_id (rowIndex colIndex : nat) :
  split "_" (toString_nat rowIndex +:+ "_" +:+ toString_nat colIndex)
  = [toString_nat rowIndex; toString_nat colIndex].
Proof.
  unfold toString_nat. rewrite split_digits.
  change ("_" +:+ NilEmpty.string_of_uint (Nat.to_uint colIndex))
    with (String "_" (NilEmpty.string_of_uint (Nat.to_uint colIndex))).
  cbn [split]. rewrite Ascii.eqb_refl. cbn [hd tl].
  rewrite split_digits_only, append_empty_r. reflexivity.
Qed.

Lemma toNumber_toString_nat (n : nat) : toNumber (toString_nat n) = Some n.
Proof.
  unfold toNumber, toString_nat. rewrite NilEmpty.usu. simpl.
  rewrite DecimalNat.Unsigned.of_to. reflexivity.
Qed.

(** [saveElement] reads back the column index that [getFormControl] put
    into the id. *)
Lemma control_id_column (rowIndex colIndex : nat) :
  split "_" (toString_nat rowIndex +:+ "_" +:+ toString_nat colIndex) !! 1
    ≫= toNumber
  = Some colIndex.
Proof.
  rewrite split_control_id. simpl. apply toNumber_toString_nat.
Qed.

(** The controls filed under the cells of a row are among those that
    [saveElement] collects for the row, each with its column index. *)
Lemma collectControls_row (rowIndex colIndex : nat)
    (entries : list (string * AbstractControl)) (control : AbstractControl) :
  In (toString_nat rowIndex +:+ "_" +:+ toString_nat colIndex, control)
    entries ->
  In (Some colIndex, control) (collectControls rowIndex entries).
Proof.
  intros Hin. unfold collectControls, iteratorToArray.
  apply in_map_iff.
  exists (toString_nat rowIndex +:+ "_" +:+ toString_nat colIndex, control).
  split.
  - simpl. rewrite control_id_column. reflexivity.
  - apply filter_In. split; [assumption|]. simpl. apply startsWith_app.
Qed.

(** Two cells have the same id only if they are the same cell. *)
Lemma control_id_inj (r c r' c' : nat) :
  toString_nat r +:+ "_" +:+ toString_nat c
  = toString_nat r' +:+ "_" +:+ toString_nat c' ->
  r = r' /\ c = c'.
Proof.
  intros Hid.
  pose proof (split_control_id r c) as Hs. rewrite Hid in Hs.
  rewrite split_control_id in Hs. injection Hs as Hr Hc.
  split.
  - apply (f_equal toNumber) in Hr. rewrite !toNumber_toString_nat in Hr.
    congruence.
  - apply (f_equal toNumber) in Hc. rewrite !toNumber_toString_nat in Hc.
    congruence.
Qed.

(* ================================================================== *)
(** * The form-field builder: properties *)
(* ================================================================== *)

Lemma isArray_alloc (h : heap) (l : list jsval) :
  isArray (h ++ [Obj (KArray l) []]) (VRef (List.length h)) = true.
Proof.
  unfold isArray. rewrite lookup_app_r by lia.
  replace (List.length h - List.length h) with 0 by lia. reflexivity.
Qed.

(* ================================================================== *)
(** * The component: properties *)
(* ================================================================== *)

Section Properties.
Context `{HostEnv}.

(** C10.  [ngOnInit] throws exactly when [addable] is set and no [create]
    function is bound; otherwise it returns and leaves the world as it
    was. *)
Theorem ngOnInit_throws_iff (w : World) :
  (ngOnInit w = None <->
   addable (this w) = true /\ truthy (create (this w)) = false) /\
  (ngOnInit w = None \/ ngOnInit w = Some (tt, w)).
Proof.
  unfold ngOnInit. unfold_M.
  destruct (addable (this w)), (truthy (create (this w))); simpl;
    intuition congruence.
Qed.

(** X23.  [ngDoCheck] constructs a new data source exactly when the
    columns differ from the saved copies in number or on a property of a
    saved copy; and when they do not, it returns and the whole world,
    with the data source, the row-status map and the form-control map, is
    left as it was. *)
Theorem ngDoCheck_rebuilds_iff (w : World) :
  (rebuilds ngDoCheck w <->
   differs_on_saved_keys (columns (this w)) (oldColumns (this w))) /\
  (~ differs_on_saved_keys (columns (this w)) (oldColumns (this w)) ->
   ngDoCheck w = Some (tt, w)).
Proof.
  rewrite <- checkForDifferences_of_spec.
  unfold rebuilds, ngDoCheck, checkForDifferences. unfold_M. simpl.
  destruct (checkForDifferences_of (oldColumns (this w)) (columns (this w)))
    eqn:Hchk.
  - split; [|intros Hn; exfalso; apply Hn; reflexivity].
    split; [reflexivity|]. intros _.
    unfold prepareForColChange, clearAddedEntry, turnOffSorting,
      recreateDataSource, cleanUpAfterColChange.
    unfold_M. simpl.
    destruct (truthy _); simpl;
      destruct (negb _); simpl; eexists; eexists;
      (split; [reflexivity|]); simpl; auto.
  - split; [|reflexivity].
    split; [|discriminate].
    intros (w' & ds & Hrun & _ & _ & Hid). inversion Hrun; subst. lia.
Qed.

Lemma ngOnChanges_count_added (changes : SimpleChanges) (w w' : World) :
  ngOnChanges changes w = Some (tt, w') ->
  count_added (dataStatus (this w')) <= count_added (dataStatus (this w)).
Proof.
  unfold ngOnChanges, clearAddedEntry, recreateDataSource,
    cleanUpAfterDataChange, turnOffSorting, theDataSource.
  unfold_M. simpl.
  repeat (case_if; simpl); intros [= <-]; simpl; try lia;
    (etransitivity; [apply count_added_fresh_statuses|]);
    unfold count_added; simpl; lia.
Qed.

(** C3.  When the [data] input changed, [ngOnChanges] returns, and in the
    world it leaves every row of the data array has a fresh status in the
    row-status map, the map has no other entry, the form-control map is
    empty and [currentlyAdding] is off. *)
Theorem ngOnChanges_restores_clean_state (changes : SimpleChanges)
    (w : World) :
  changes_data changes = true ->
  exists w' : World,
    ngOnChanges changes w = Some (tt, w') /\
    (forall e : jsval, In e (data (this w')) ->
       Map_get (dataStatus (this w')) e = Some new_DataStatus) /\
    (forall (k : jsval) (st : DataStatus),
       In (k, st) (dataStatus (this w')) ->
       In k (data (this w')) /\ st = new_DataStatus) /\
    formControls (this w') = [] /\
    currentlyAdding (this w') = false.
Proof.
  intros Hdata. unfold ngOnChanges. rewrite Hdata.
  unfold clearAddedEntry, recreateDataSource, cleanUpAfterDataChange,
    turnOffSorting, theDataSource.
  unfold_M. simpl.
  repeat (case_if; simpl);
    (eexists; split; [reflexivity|]; simpl;
     split; [intros e He; apply fresh_statuses_get;
             first [ assumption
                   | eapply Permutation_in;
                     [apply sortData_permutes | exact He] ]|];
     split; [|split; reflexivity];
     intros k st Hin; apply fresh_statuses_In in Hin as [[]|[Hin ->]];
     split; [|reflexivity];
     first [ assumption
           | eapply Permutation_in;
             [apply Permutation_sym, sortData_permutes | exact Hin] ]).
Qed.

(** C4.  When a form control of the row is invalid, [saveElement] returns
    and leaves the whole world as it was: nothing is emitted, and the data
    array, the row-status map, the form-control map and [currentlyAdding]
    are untouched. *)
Theorem saveElement_atomic_on_invalid (rowIndex colIndex : nat)
    (oldElement : jsval) (control : AbstractControl) (w : World) :
  Map_get (formControls (this w))
    (toString_nat rowIndex +:+ "_" +:+ toString_nat colIndex) = Some control ->
  valid control = false ->
  saveElement rowIndex oldElement w = Some (tt, w).
Proof.
  intros Hget Hinvalid. apply Map_get_In in Hget.
  pose proof (collectControls_row _ _ _ _ Hget) as Hcol.
  unfold saveElement. unfold bind at 1, getThis at 1.
  assert (Hsome : existsb (fun control => negb (valid (snd control)))
                    (collectControls rowIndex (formControls (this w))) = true).
  { apply existsb_exists. exists (Some colIndex, control).
    split; [assumption|].
    simpl. rewrite Hinvalid. reflexivity. }
  rewrite Hsome. reflexivity.
Qed.

(** ** What each method leaves of the row-status map *)

Lemma saveElement_this (rowIndex : nat) (oldElement : jsval) (w w' : World) :
  saveElement rowIndex oldElement w = Some (tt, w') ->
  this w' = this w \/
  this w' = set_data (tail (data (this w)))
              (set_currentlyAdding false (this w)).
Proof.
  unfold saveElement. unfold bind at 1, getThis at 1.
  case_if; [intros [= <-]; auto|].
  unfold bind at 1.
  destruct (deepCopy oldElement w) as [[element w1]|] eqn:E1; [|discriminate].
  apply keeps_this_deepCopy in E1 as [E1 _].
  unfold bind at 1.
  match goal with |- context [forEach ?l ?b w1] =>
    destruct (forEach l b w1) as [[[] w2]|] eqn:E2; [|discriminate];
    assert (E3 : this w2 = this w1)
  end.
  { refine (proj1 (keeps_this_forEach _ _ _ _ _ _ E2)). intros x. keeps. }
  unfold_M. destruct (Map_get (dataStatus (this w2)) oldElement) as [st|];
    [|discriminate].
  destruct (added st); intros [= <-]; simpl; rewrite E3, E1; auto.
Qed.

Lemma getFormControl_dataStatus (rowIndex colIndex : nat) (tcol : props)
    (element : jsval) (control : AbstractControl) (w w' : World) :
  getFormControl rowIndex colIndex tcol element w = Some (control, w') ->
  dataStatus (this w') = dataStatus (this w).
Proof.
  unfold getFormControl. unfold bind at 1, getThis at 1.
  case_if.
  - unfold_M. destruct (Map_get _ _); intros [= <- <-]; reflexivity.
  - unfold bind at 1, getMem at 1. unfold bind at 1.
    destruct (orThrow _ w) as [[init w0]|] eqn:E0; [|discriminate].
    apply keeps_this_orThrow in E0 as [E0 _].
    unfold bind at 1.
    match goal with |- context [(if ?b then ?m1 else ?m2) w0] =>
      destruct ((if b then m1 else m2) w0) as [[v w1]|] eqn:E1;
        [|discriminate];
      assert (E2 : this w1 = this w0)
    end.
    { refine (proj1 (keeps_this_if _ _ _ _ _ _ _ _ E1)); keeps. }
    unfold fb_control. unfold_M. intros [= <- <-]. simpl. congruence.
Qed.

Lemma startAddElement_spec (w w' : World) :
  startAddElement w = Some (tt, w') ->
  exists (f : nat),
    create (this w) = VFun f /\
    let ele := fst (host_call f [] (mem w)) in
    (Permutation (data (this w')) (ele :: data (this w)) /\
     (active (matSort (this w)) = "" ->
      data (this w') = ele :: data (this w))) /\
    dataStatus (this w')
    = Map_set (fold_left (fun m d => Map_set m d new_DataStatus)
                 (ele :: data (this w)) [])
        ele {| editing := true; added := true |} /\
    currentlyAdding (this w') = true.
Proof.
  unfold startAddElement, call, recreateDataSource, cleanUpAfterDataChange,
    turnOffSorting, theDataSource.
  unfold_M. simpl.
  destruct (create (this w)) as [| | | | | |f| |]; try discriminate. simpl.
  destruct (String.eqb_spec (active (matSort (this w))) "") as [E|E]; simpl;
    repeat (case_if; simpl); intros [= <-]; simpl;
    (exists f; split; [reflexivity|]; split; [|split; reflexivity]);
    (split; [first [reflexivity | apply sortData_permutes]
            | first [reflexivity | contradiction]]).
Qed.

Lemma startAddElement_count (w w' : World) :
  startAddElement w = Some (tt, w') ->
  count_added (dataStatus (this w')) <= 1.
Proof.
  intros Hrun. apply startAddElement_spec in Hrun as (f & _ & _ & -> & _).
  etransitivity; [apply count_added_Map_set_le|].
  pose proof (count_added_fresh_statuses
                (fst (host_call f [] (mem w)) :: data (this w)) []) as Hle.
  unfold count_added in Hle at 2. simpl in Hle. simpl. lia.
Qed.

Lemma step_count_added (w w' : World) :
  step w w' ->
  count_added (dataStatus (this w)) <= 1 ->
  count_added (dataStatus (this w')) <= 1.
Proof.
  intros Hstep Hinv. destruct Hstep as
    [w w' Hrun|changes w w' Hrun|w w' Hrun|v w w' Hrun
    |r c tcol element control w w' Hrun|w w' Hrun|r e w w' Hrun
    |e w w' Hrun|e w w' Hrun|w w' Hsame _].
  - revert Hrun. unfold ngOnInit. unfold_M.
    case_if; [discriminate|]. intros [= <-]. assumption.
  - apply ngOnChanges_count_added in Hrun. lia.
  - revert Hrun.
    unfold ngDoCheck, checkForDifferences, prepareForColChange,
      clearAddedEntry, turnOffSorting, recreateDataSource,
      cleanUpAfterColChange.
    unfold_M. simpl.
    repeat (case_if; simpl); intros [= <-]; simpl; try assumption;
      (etransitivity; [apply count_added_reset|]); try assumption;
      (etransitivity; [apply count_added_Map_delete|]); assumption.
  - revert Hrun. unfold applyFilter, theDataSource. unfold_M.
    destruct (dataSource (this w)); [|discriminate].
    intros [= <-]. assumption.
  - apply getFormControl_dataStatus in Hrun. rewrite Hrun. assumption.
  - eapply startAddElement_count; eauto.
  - apply saveElement_this in Hrun as [-> | ->]; assumption.
  - revert Hrun. unfold startEditElement. unfold_M. intros [= <-]. simpl.
    rewrite count_added_Map_set_same; [assumption | reflexivity].
  - revert Hrun. unfold cancelEditElement. unfold_M.
    destruct (Map_get (dataStatus (this w)) e) as [st|] eqn:Hget;
      [|discriminate].
    intros [= <-]. simpl.
    rewrite count_added_Map_set_same; [assumption|].
    rewrite Hget. reflexivity.
  - rewrite Hsame. assumption.
Qed.

(** X18.  In every world that the component can reach, at most one entry
    of the row-status map carries [added]: [startAddElement] resets the
    statuses before it marks the created row, marking a row as editing
    and cancelling an edit keep the mark of a row, and no other method
    sets it. *)
Theorem at_most_one_added_entry (w : World) :
  reachable w -> count_added (dataStatus (this w)) <= 1.
Proof.
  induction 1 as [w (_ & _ & _ & Hstatus & _)|w w' _ IH Hstep].
  - rewrite Hstatus. unfold count_added. simpl. lia.
  - eapply step_count_added; eauto.
Qed.

(** ** The filter *)




(** ** [saveElement] returns on a row that can be saved *)


(** ** [saveElement] applies the form values to a copy *)




(** ** The filter string and the filter predicate *)


(** ** One control for each cell *)

(** C7.  [getFormControl] on a cell that has no control yet returns
    whenever the form field and the element can be read and [init] is a
    function or not set.  It then makes one control, with the next
    identity, of the form state that is [init] applied to the element's
    property and the element, or the property itself when there is no
    [init]: the value of the control is that state, and the control is
    valid, unless the state is a boxed value, whose [value] the control
    gets and whose [disabled] disables the control; the control is filed
    under the cell.  On a cell that has a control it returns that very
    control and changes nothing, whatever column and element are passed;
    a call for one cell keeps the controls filed under every cell; and no
    other cell has the id of this one. *)
Theorem getFormControl_idempotent (rowIndex colIndex : nat) (w : World) :
  let id := toString_nat rowIndex +:+ "_" +:+ toString_nat colIndex in
  (forall (tcol : props) (element init p : jsval),
      Map_get (formControls (this w)) id = None ->
      get_member (mem w) (get_prop tcol "formField") "init" = Some init ->
      get_member (mem w) element
        (to_key (mem w) (get_prop tcol "property")) = Some p ->
      (truthy init = true -> exists f : nat, init = VFun f) ->
      exists (control : AbstractControl) (w' : World) (state : jsval),
        getFormControl rowIndex colIndex tcol element w
        = Some (control, w') /\
        (if truthy init
         then exists f : nat,
                init = VFun f /\
                (state, mem w') = host_call f [p; element] (mem w)
         else state = p /\ mem w' = mem w) /\
        ctl_id control = nextId (this w) /\
        match boxed_value (mem w') state with
        | Some box =>
            value control = get_prop box "value" /\
            valid control = negb (truthy (get_prop box "disabled"))
        | None => value control = state /\ valid control = true
        end /\
        formControls (this w')
        = Map_set (formControls (this w)) id control /\
        Map_get (formControls (this w')) id = Some control) /\
  (forall (tcol : props) (element : jsval) (control : AbstractControl),
      Map_get (formControls (this w)) id = Some control ->
      getFormControl rowIndex colIndex tcol element w = Some (control, w)) /\
  (forall (r c : nat) (tcol : props) (element : jsval)
          (control other : AbstractControl) (w' : World),
      Map_get (formControls (this w)) id = Some control ->
      getFormControl r c tcol element w = Some (other, w') ->
      Map_get (formControls (this w')) id = Some control) /\
  (forall r c : nat,
      toString_nat r +:+ "_" +:+ toString_nat c = id ->
      r = rowIndex /\ c = colIndex).
Proof.
  intros id. split; [|split; [|split]];
    [| | |intros r c Hid; apply control_id_inj; exact Hid].
  - intros tcol element init p Hnone Hinit Hp Hfun.
    unfold getFormControl. fold id. unfold bind at 1, getThis at 1.
    unfold Map_has. rewrite Hnone.
    rewrite bool_decide_eq_false_2 by (intros [? ?]; discriminate).
    unfold member, call, fb_control. unfold_M. simpl.
    rewrite Hinit.
    destruct (truthy init) eqn:Htruthy; simpl; rewrite Hp.
    + destruct (Hfun eq_refl) as [f ->]. simpl.
      destruct (host_call f [p; element] (mem w)) as [state h'] eqn:Hcall.
      simpl.
      eexists. eexists. exists state. split; [reflexivity|]. simpl.
      split; [exists f; auto|]. split; [destruct (boxed_value h' state);
                                        reflexivity|].
      split; [destruct (boxed_value h' state); simpl; auto|].
      split; [reflexivity | apply Map_get_set_eq].
    + eexists. eexists. exists p. split; [reflexivity|]. simpl.
      split; [auto|]. split; [destruct (boxed_value (mem w) p);
                              reflexivity|].
      split; [destruct (boxed_value (mem w) p); simpl; auto|].
      split; [reflexivity | apply Map_get_set_eq].
  - intros tcol element control Hsome.
    unfold getFormControl. fold id. unfold_M.
    unfold Map_has. rewrite Hsome.
    rewrite bool_decide_eq_true_2 by eauto. reflexivity.
  - intros r c tcol element control other w' Hsome.
    unfold getFormControl.
    set (id' := toString_nat r +:+ "_" +:+ toString_nat c).
    unfold bind at 1, getThis at 1.
    destruct (Map_has (formControls (this w)) id') eqn:Hhas.
    + unfold_M. destruct (Map_get (formControls (this w)) id');
        [|discriminate]. intros [= <- <-]. assumption.
    + assert (Hne : id' <> id).
      { intros ->. unfold Map_has in Hhas. fold id in Hhas.
        rewrite Hsome in Hhas.
        rewrite bool_decide_eq_true_2 in Hhas by eauto. discriminate. }
      unfold member, call, fb_control. unfold_M. simpl.
      destruct (get_member (mem w) (get_prop tcol "formField") "init")
        as [init|]; [|discriminate].
      destruct (truthy init); simpl;
        (destruct (get_member (mem w) element _); [|discriminate]);
        [destruct init; try discriminate; simpl|];
        intros [= <- <-]; simpl;
        rewrite Map_get_set_ne by assumption; assumption.
Qed.

End Properties.

(* ================================================================== *)
(** * The statements at concrete worlds *)
(* ================================================================== *)

Lemma world_loaded_reachable : @reachable sample_host world_loaded.
Proof.
  pose (changes := {| changes_data := true; changes_columns := true |}).
  apply reachable_step with (after (@ngOnChanges sample_host changes)
                               world_bound).
  - apply reachable_step with world_bound.
    + apply reachable_initial. unfold initial. simpl. auto 10.
    + apply step_ngOnChanges with changes. vm_compute. reflexivity.
  - apply step_ngDoCheck. vm_compute. reflexivity.
Qed.

(** C1.  A reachable world in which the column of the table has gained a
    property since the last rebuild: the column has a [width], which its
    saved copy does not have, so that the columns differ from the saved
    copies; and [ngDoCheck] rebuilds nothing, it returns and leaves the
    world, with the data source, as it was. *)
Theorem ngDoCheck_misses_added_property :
  @reachable sample_host world_width_added /\
  columns (this world_width_added)
  = [name_column ++ [("width", VStr "10px")]] /\
  oldColumns (this world_width_added) = [name_column] /\
  differs_on_column_keys (columns (this world_width_added))
    (oldColumns (this world_width_added)) /\
  @ngDoCheck sample_host world_width_added
  = Some (tt, world_width_added) /\
  ~ rebuilds (@ngDoCheck sample_host) world_width_added.
Proof.
  split.
  { apply reachable_step with world_loaded;
      [exact world_loaded_reachable | apply step_page; reflexivity]. }
  split; [reflexivity|]. split; [reflexivity|].
  split.
  { right. exists 0, (name_column ++ [("width", VStr "10px")]), name_column,
      "width".
    repeat split; simpl; auto 10. }
  split; [reflexivity|].
  intros (w' & ds & Hrun & _ & _ & Hid).
  vm_compute in Hrun. inversion Hrun; subst. vm_compute in Hid. lia.
Qed.

(** ** The sample host and heap meet the assumptions *)



Lemma world_adding_reachable : @reachable sample_host world_adding.
Proof.
  pose (changes := {| changes_data := true; changes_columns := true |}).
  apply reachable_step with world_loaded.
  - apply reachable_step with (after (@ngOnChanges sample_host changes)
                                 world_bound).
    + apply reachable_step with world_bound.
      * apply reachable_initial. unfold initial. simpl. auto 10.
      * apply step_ngOnChanges with changes. vm_compute. reflexivity.
    + apply step_ngDoCheck. vm_compute. reflexivity.
  - apply step_startAddElement. vm_compute. reflexivity.
Qed.

Lemma world_sorted_desc_reachable : @reachable sample_host world_sorted_desc.
Proof.
  pose (changes := {| changes_data := true; changes_columns := true |}).
  pose (w1 := after (@ngOnChanges sample_host changes) world_sorting).
  apply reachable_step with (after (@ngDoCheck sample_host) w1);
    [|apply step_page; reflexivity].
  apply reachable_step with w1;
    [|apply step_ngDoCheck; vm_compute; reflexivity].
  apply reachable_step with world_sorting;
    [|apply step_ngOnChanges with changes; vm_compute; reflexivity].
  apply reachable_initial. unfold initial. simpl. auto 10.
Qed.

(** C5.  Two reachable worlds in which taking the added row out again
    takes another row instead.  In the first a descending sort is on the
    table: [startAddElement] puts the created row in front of the two
    rows and then sorts the data array, which leaves the created row last;
    saving it takes the first row off the array, a row of the table,
    and keeps the created row in it.  In the second a row is pending
    while the page binds a new data array with the two rows: the data
    change finds no pending row in that array and takes its last row
    out. *)
Theorem added_row_takes_other_rows :
  (@reachable sample_host world_sorted_desc /\
   data (this world_sorted_desc) = [VRef 0; VRef 2] /\
   exists w1 w2 : World,
     @startAddElement sample_host world_sorted_desc = Some (tt, w1) /\
     data (this w1) = [VRef 2; VRef 0; VRef 5] /\
     Map_get (dataStatus (this w1)) (VRef 5)
     = Some {| editing := true; added := true |} /\
     @saveElement sample_host 2 (VRef 5) w1 = Some (tt, w2) /\
     out w2 = [ConsoleLog [VRef 0; VRef 5]; EmitAdd (VRef 6)] /\
     data (this w2) = [VRef 0; VRef 5]) /\
  (@reachable sample_host world_adding_rebound /\
   data (this world_adding_rebound) = [VRef 0; VRef 2] /\
   Map_get (dataStatus (this world_adding_rebound)) (VRef 5)
   = Some {| editing := true; added := true |} /\
   exists w' : World,
     @ngOnChanges sample_host
       {| changes_data := true; changes_columns := false |}
       world_adding_rebound
     = Some (tt, w') /\
     data (this w') = [VRef 0]).
Proof.
  split.
  - split; [exact world_sorted_desc_reachable|]. split; [reflexivity|].
    eexists. eexists. split; [vm_compute; reflexivity|].
    split; [reflexivity|]. split; [reflexivity|].
    split; [vm_compute; reflexivity|]. split; reflexivity.
  - split.
    { apply reachable_step with world_adding;
        [exact world_adding_reachable | apply step_page; reflexivity]. }
    split; [reflexivity|]. split; [reflexivity|].
    eexists. split; [vm_compute; reflexivity|]. reflexivity.
Qed.


(** ** Witnesses *)

Lemma ngOnChanges_restores_clean_state_witness :
  exists w' : World,
    @ngOnChanges sample_host
      {| changes_data := true; changes_columns := false |} world_adding
    = Some (tt, w') /\
    (forall e : jsval, In e (data (this w')) ->
       Map_get (dataStatus (this w')) e = Some new_DataStatus) /\
    (forall (k : jsval) (st : DataStatus),
       In (k, st) (dataStatus (this w')) ->
       In k (data (this w')) /\ st = new_DataStatus) /\
    formControls (this w') = [] /\
    currentlyAdding (this w') = false.
Proof.
  apply (@ngOnChanges_restores_clean_state sample_host
           {| changes_data := true; changes_columns := false |} world_adding).
  reflexivity.
Defined.


Lemma getFormControl_idempotent_witness :
  (exists (control : AbstractControl) (w' : World),
      @getFormControl sample_host 0 0 name_column (VRef 0) world_loaded
      = Some (control, w') /\
      value control = VStr "Ada" /\ valid control = true /\
      @getFormControl sample_host 0 0 [] VUndefined w' = Some (control, w')) /\
  (exists (control : AbstractControl) (w' : World),
      @getFormControl sample_host 2 0 name_column (VRef 6) world_boxed
      = Some (control, w') /\
      value control = VStr "Ann" /\ valid control = false).
Proof.
  split.
  - destruct (proj1 (@getFormControl_idempotent sample_host 0 0 world_loaded)
                name_column (VRef 0) VUndefined (VStr "Ada")
                eq_refl eq_refl eq_refl)
      as (control & w' & state & Hrun & [-> Hmem] & _ & Hvalue & _ & Hget);
      [discriminate|].
    exists control, w'. split; [exact Hrun|].
    rewrite Hmem in Hvalue. destruct Hvalue as [Hvalue Hvalid].
    split; [exact Hvalue|]. split; [exact Hvalid|].
    apply (@getFormControl_idempotent sample_host 0 0 w'). exact Hget.
  - destruct (proj1 (@getFormControl_idempotent sample_host 2 0 world_boxed)
                name_column (VRef 6) VUndefined (VRef 5)
                eq_refl eq_refl eq_refl)
      as (control & w' & state & Hrun & [-> Hmem] & _ & Hvalue & _);
      [discriminate|].
    exists control, w'. split; [exact Hrun|].
    rewrite Hmem in Hvalue. exact Hvalue.
Defined.

Lemma ngDoCheck_rebuilds_iff_witness :
  rebuilds (@ngDoCheck sample_host) world_bound /\
  @ngDoCheck sample_host world_width_added = Some (tt, world_width_added).
Proof.
  split.
  - apply (@ngDoCheck_rebuilds_iff sample_host world_bound).
    left. simpl. discriminate.
  - apply (@ngDoCheck_rebuilds_iff sample_host world_width_added).
    rewrite <- checkForDifferences_of_spec. vm_compute. discriminate.
Defined.

Lemma at_most_one_added_entry_witness :
  Map_get (dataStatus (this world_adding)) (VRef 5)
  = Some {| editing := true; added := true |} /\
  count_added (dataStatus (this world_adding)) <= 1.
Proof.
  split; [reflexivity|].
  apply (@at_most_one_added_entry sample_host world_adding).
  exact world_adding_reachable.
Defined.

Lemma saveElement_atomic_on_invalid_witness :
  @saveElement sample_host 0 (VRef 0) world_invalid = Some (tt, world_invalid).
Proof.
  apply (@saveElement_atomic_on_invalid sample_host 0 0 (VRef 0)
           {| ctl_id := 2; value := VStr ""; valid := false |} world_invalid);
    reflexivity.
Defined.

(** ** The methods at work *)

Lemma world_rows_1_and_10_reachable :
  @reachable sample_host world_rows_1_and_10.
Proof.
  pose (changes := {| changes_data := true; changes_columns := true |}).
  pose (w1 := after (@ngOnChanges sample_host changes) world_eleven_bound).
  pose (w3 := after (startEditElement (VRef 1)) world_eleven_loaded).
  pose (w4 := after (startEditElement (VRef 10)) w3).
  pose (w5 := after (@getFormControl sample_host 1 0 eleven_rows_column
                       (VRef 1)) w4).
  apply reachable_step with world_eleven_editing; [|apply step_page; reflexivity].
  apply reachable_step with w5;
    [|eapply step_getFormControl with (rowIndex := 10) (colIndex := 0)
        (tcol := eleven_rows_column) (element := VRef 10);
      vm_compute; reflexivity].
  apply reachable_step with w4;
    [|eapply step_getFormControl with (rowIndex := 1) (colIndex := 0)
        (tcol := eleven_rows_column) (element := VRef 1);
      vm_compute; reflexivity].
  apply reachable_step with w3;
    [|apply step_startEditElement with (VRef 10); vm_compute; reflexivity].
  apply reachable_step with world_eleven_loaded;
    [|apply step_startEditElement with (VRef 1); vm_compute; reflexivity].
  apply reachable_step with w1;
    [|apply step_ngDoCheck; vm_compute; reflexivity].
  apply reachable_step with world_eleven_bound;
    [|apply step_ngOnChanges with changes; vm_compute; reflexivity].
  apply reachable_initial. unfold initial. simpl. auto 10.
Qed.

(** C2.  In a reachable world where the rows 1 and 10 are both being
    edited, saving row 1 collects the control of row 10 as well, applies
    it after the row's own, and emits a copy of row 1 that carries what
    was typed into row 10. *)
Theorem saveElement_reads_other_rows :
  @reachable sample_host world_rows_1_and_10 /\
  formControls (this world_rows_1_and_10)
  = [("1_0", {| ctl_id := 2; value := VStr "Bea"; valid := true |});
     ("10_0", {| ctl_id := 3; value := VStr "Kay"; valid := true |})] /\
  collectControls 1 (formControls (this world_rows_1_and_10))
  = [(Some 0, {| ctl_id := 2; value := VStr "Bea"; valid := true |});
     (Some 0, {| ctl_id := 3; value := VStr "Kay"; valid := true |})] /\
  exists w' : World,
    @saveElement sample_host 1 (VRef 1) world_rows_1_and_10 = Some (tt, w') /\
    out w' = [EmitEdit (VRef 12)] /\
    get_member (mem w') (VRef 12) "name" = Some (VStr "Kay").
Proof.
  split; [exact world_rows_1_and_10_reachable|].
  split; [reflexivity|]. split; [reflexivity|].
  eexists. split; [vm_compute; reflexivity|]. split; reflexivity.
Qed.

(** The search box: " ADA " finds the row of Ada and not that of Bob. *)
Example filterPredicate_sample :
  fst <$> @filterPredicate sample_host (VRef 0) " ADA " world_loaded
  = Some true /\
  fst <$> @filterPredicate sample_host (VRef 2) " ADA " world_loaded
  = Some false.
Proof. split; reflexivity. Qed.

(** A row with a property named [constructor]: [deepCopy] takes it for
    the constructor of the row, and throws when it is no function. *)
Example deepCopy_constructor_sample :
  @deepCopy_fuel sample_host 16 (VRef 0)
    [Obj (KObject 0) [("constructor", VStr "Ada")]] = None /\
  @deepCopy_fuel sample_host 16 (VRef 0)
    [Obj (KObject 0) [("constructor", VFun 7)]]
  = Some (VRef 1, [Obj (KObject 0) [("constructor", VFun 7)];
                   Obj (KObject 7) [("constructor", VFun 7)]]).
Proof. split; reflexivity. Qed.

(** ** The primitives at work *)

Example toString_nat_sample :
  toString_nat 0 = "0" /\ toString_nat 10 = "10" /\ toString_Z (-7) = "-7".
Proof. repeat split. Qed.

Example toNumber_sample :
  toNumber "10" = Some 10 /\ toNumber "" = Some 0 /\ toNumber "1x" = None.
Proof. repeat split. Qed.

Example startsWith_sample :
  startsWith "10_0" "1" = true /\ startsWith "1_0" "1" = true /\
  startsWith "2_1" "1" = false /\ startsWith "" "1" = false.
Proof. repeat split. Qed.

Example split_sample :
  split "_" "10_0" = ["10"; "0"] /\ split "_" "ab" = ["ab"] /\
  split "_" "_" = [""; ""].
Proof. repeat split. Qed.

Example indexOf_sample :
  indexOf "hello" "ll" = 2%Z /\ indexOf "hello" "z" = (-1)%Z /\
  indexOf "" "" = 0%Z /\ indexOf "abc" "" = 0%Z.
Proof. repeat split. Qed.

Example trim_toLowerCase_sample :
  trim "  Ada Lovelace  " = "Ada Lovelace" /\ trim "   " = "" /\
  toLowerCase "Ada_42 Z" = "ada_42 z".
Proof. repeat split. Qed.

(** The upper half of the code units: the capital A with diaeresis
    (196) has a small letter, the multiplication sign (215) and the
    sharp s (223) have none, and [trim] takes the no-break space (160)
    off. *)
Example upper_half_sample :
  toLowerCase (String (ascii_of_nat 196) "B")
  = String (ascii_of_nat 228) "b" /\
  toLowerCase (String (ascii_of_nat 215) (String (ascii_of_nat 223) ""))
  = String (ascii_of_nat 215) (String (ascii_of_nat 223) "") /\
  trim (String (ascii_of_nat 160) "a ") = "a".
Proof. repeat split. Qed.

(** Numbers as strings: digit by digit up to [2^53], and as the runtime
    prints them beyond. *)
Example toString_number_sample :
  @toString sample_host [] (VNum 42) = Some "42" /\
  @toString sample_host [] (VNum (2 ^ 53)) = Some "9007199254740992" /\
  @toString sample_host [] (VNum (10 ^ 21)) = Some "1e+21".
Proof. repeat split. Qed.

Example splice1_sample :
  splice1 1 [VNum 1; VNum 2; VNum 3] = [VNum 1; VNum 3] /\
  splice1 (-1) [VNum 1; VNum 2; VNum 3] = [VNum 1; VNum 2] /\
  splice1 7 [VNum 1; VNum 2; VNum 3] = [VNum 1; VNum 2; VNum 3] /\
  array_indexOf [VNum 1; VNaN] VNaN = (-1)%Z.
Proof. repeat split. Qed.

Example world_with_field_sample :
  mem world_with_field !! 5
  = Some (Obj (KObject 1)
            [("validators", VRef 6); ("errors", VRef 7);
             ("placeholder", VStr ""); ("hint", VStr "")]) /\
  mem world_with_field !! 6 = Some (Obj (KArray []) []).
Proof. split; reflexivity. Qed.

(* ================================================================== *)
(** * The editing state of a row *)
(* ================================================================== *)

Section JsMapWrites.
Context {K V : Type} `{EqDecision K}.

Lemma Map_set_set (m : list (K * V)) (k : K) (v v' : V) :
  Map_set (Map_set m k v) k v' = Map_set m k v'.
Proof.
  induction m as [|[k0 v0] m IH]; simpl.
  - destruct (decide (k = k)); congruence.
  - destruct (decide (k0 = k)) as [->|Hne]; simpl.
    + destruct (decide (k = k)); congruence.
    + destruct (decide (k0 = k)); congruence.
Qed.

Lemma Map_set_same (m : list (K * V)) (k : K) (v : V) :
  Map_get m k = Some v -> Map_set m k v = m.
Proof.
  induction m as [|[k0 v0] m IH]; simpl; [discriminate|].
  destruct (decide (k0 = k)) as [->|Hne].
  - intros [= ->]. reflexivity.
  - intros Hget. rewrite IH by assumption. reflexivity.
Qed.

Lemma Map_get_delete_ne (m : list (K * V)) (k k' : K) :
  k <> k' -> Map_get (Map_delete m k) k' = Map_get m k'.
Proof.
  intros Hne. induction m as [|[k0 v0] m IH]; simpl; [reflexivity|].
  destruct (decide (k0 = k)) as [->|Hk]; simpl.
  - destruct (decide (k = k')); congruence.
  - destruct (decide (k0 = k')); congruence.
Qed.
End JsMapWrites.

Section EditingState.

(** X1.  [startEditElement] returns on every element, known to the row-status
    map or not; afterwards [isEditing] answers [true] for it, its [added]
    flag is what it was (off for an element the map did not know), the
    status of every other element is what it was, and nothing but the
    row-status map has changed. *)
Theorem startEditElement_marks_row (element : jsval) (w : World) :
  exists w' : World,
    startEditElement element w = Some (tt, w') /\
    isEditing element w' = Some (true, w') /\
    Map_get (dataStatus (this w')) element
    = Some {| editing := true;
              added := match Map_get (dataStatus (this w)) element with
                       | Some st => added st
                       | None => false
                       end |} /\
    (forall other : jsval,
        other <> element ->
        Map_get (dataStatus (this w')) other
        = Map_get (dataStatus (this w)) other) /\
    w' = {| this := set_dataStatus (dataStatus (this w')) (this w);
            mem := mem w; out := out w |}.
Proof.
  unfold startEditElement, isEditing. unfold_M. simpl.
  eexists. split; [reflexivity|]. simpl.
  rewrite Map_get_set_eq. simpl.
  split; [reflexivity|].
  split; [destruct (Map_get (dataStatus (this w)) element); reflexivity|].
  split; [|reflexivity].
  intros other Hne. apply Map_get_set_ne. congruence.
Qed.

(** X2.  [cancelEditElement] and [isEditing] throw exactly on an element that
    the row-status map does not know; on a known one [cancelEditElement]
    returns, afterwards [isEditing] answers [false] for it, its [added]
    flag is kept, and the status of every other element is what it
    was. *)
Theorem cancelEditElement_unknown_row (element : jsval) (w : World) :
  (cancelEditElement element w = None <->
   Map_get (dataStatus (this w)) element = None) /\
  (isEditing element w = None <->
   Map_get (dataStatus (this w)) element = None) /\
  (forall st : DataStatus,
      Map_get (dataStatus (this w)) element = Some st ->
      isEditing element w = Some (editing st, w) /\
      exists w' : World,
        cancelEditElement element w = Some (tt, w') /\
        isEditing element w' = Some (false, w') /\
        Map_get (dataStatus (this w')) element
        = Some {| editing := false; added := added st |} /\
        (forall other : jsval,
            other <> element ->
            Map_get (dataStatus (this w')) other
            = Map_get (dataStatus (this w)) other)).
Proof.
  unfold cancelEditElement, isEditing. unfold_M. simpl.
  destruct (Map_get (dataStatus (this w)) element) as [st0|] eqn:Hget.
  - split; [split; discriminate|]. split; [split; discriminate|].
    intros st [= <-]. split; [reflexivity|].
    eexists. split; [reflexivity|]. simpl.
    rewrite Map_get_set_eq. simpl.
    split; [reflexivity|]. split; [reflexivity|].
    intros other Hne. apply Map_get_set_ne. congruence.
  - split; [tauto|]. split; [tauto|]. intros st [=].
Qed.

(** X3.  For a row that the row-status map knows and that is not in editing,
    [cancelEditElement] right after [startEditElement] gives back the
    world as it was. *)
Theorem startEdit_cancelEdit_round_trip (element : jsval) (st : DataStatus)
    (w : World) :
  Map_get (dataStatus (this w)) element = Some st ->
  editing st = false ->
  (startEditElement element ;; cancelEditElement element) w = Some (tt, w).
Proof.
  intros Hget Hediting.
  unfold startEditElement, cancelEditElement. unfold_M. simpl.
  rewrite Hget. simpl. rewrite Map_get_set_eq. simpl.
  rewrite Map_set_set.
  rewrite Map_set_same
    by (rewrite Hget; destruct st; simpl in *; congruence).
  destruct w as [c h o]. simpl. destruct c. reflexivity.
Qed.

End EditingState.

Lemma cancelEditElement_unknown_row_witness :
  @isEditing (VRef 0) world_loaded = Some (false, world_loaded) /\
  exists w' : World,
    @cancelEditElement (VRef 0) world_loaded = Some (tt, w') /\
    @isEditing (VRef 0) w' = Some (false, w').
Proof.
  destruct (cancelEditElement_unknown_row (VRef 0) world_loaded)
    as (_ & _ & Hknown).
  destruct (Hknown new_DataStatus eq_refl) as (Hbefore & w' & Hrun & Hafter & _).
  split; [exact Hbefore|]. exists w'. split; assumption.
Defined.

Lemma startEdit_cancelEdit_round_trip_witness :
  (startEditElement (VRef 0) ;; cancelEditElement (VRef 0)) world_loaded
  = Some (tt, world_loaded).
Proof.
  apply (startEdit_cancelEdit_round_trip (VRef 0) new_DataStatus world_loaded);
    reflexivity.
Defined.

(* ================================================================== *)
(** * Clicks *)
(* ================================================================== *)

Section Clicks.
Context `{HostEnv}.

(** X4.  [onClick] leaves the world as it was, and calls nothing, for a column
    without an [onClick] handler, for a cell of a row that is in editing,
    for a cell of a button column and for a button of a column that is no
    button column, whether the row-status map knows the element or, in
    all cases but the second, not.  In the remaining cases, a button of a
    button column and a cell of another column whose row is not in
    editing, it calls the handler, once, on the element's property and
    the element, and changes nothing besides. *)
Theorem onClick_guards (tcol : props) (element : jsval) (w : World) :
  (truthy (get_prop tcol "onClick") = false ->
   forall fromButton : bool,
     onClick tcol element fromButton w = Some (tt, w)) /\
  (forall st : DataStatus,
      Map_get (dataStatus (this w)) element = Some st ->
      editing st = true ->
      onClick tcol element false w = Some (tt, w)) /\
  (truthy (get_prop tcol "button") = true ->
   onClick tcol element false w = Some (tt, w)) /\
  (truthy (get_prop tcol "button") = false ->
   onClick tcol element true w = Some (tt, w)) /\
  (forall (f : nat) (p : jsval),
      get_prop tcol "onClick" = VFun f ->
      get_member (mem w) element (to_key (mem w) (get_prop tcol "property"))
      = Some p ->
      let called :=
        Some (tt, {| this := this w;
                     mem := snd (host_call f [p; element] (mem w));
                     out := out w |}) in
      (truthy (get_prop tcol "button") = true ->
       onClick tcol element true w = called) /\
      (forall st : DataStatus,
          truthy (get_prop tcol "button") = false ->
          Map_get (dataStatus (this w)) element = Some st ->
          editing st = false ->
          onClick tcol element false w = called)).
Proof.
  unfold onClick, isCellClickable, isButtonClickable, isEditing, js_and,
    member, call.
  unfold_M. simpl.
  split.
  { intros Hno [|]; repeat (rewrite Hno; simpl); reflexivity. }
  split.
  { intros st Hget Hed.
    destruct (truthy (get_prop tcol "onClick")) eqn:Hclick; simpl;
      [|repeat (rewrite Hclick; simpl); reflexivity].
    destruct (truthy (get_prop tcol "button")); simpl; [reflexivity|].
    rewrite Hget, Hed. reflexivity. }
  split.
  { intros Hbutton. rewrite Hbutton.
    destruct (truthy (get_prop tcol "onClick")) eqn:Hclick; simpl;
      repeat (rewrite Hclick; simpl); reflexivity. }
  split.
  { intros Hbutton.
    destruct (truthy (get_prop tcol "onClick")) eqn:Hclick; simpl;
      repeat (rewrite ?Hclick, ?Hbutton; simpl); reflexivity. }
  intros f p Hf Hp. rewrite Hf. simpl. split.
  - intros Hbutton. rewrite Hbutton, Hp. destruct w; reflexivity.
  - intros st Hbutton Hget Hed. rewrite Hbutton. simpl.
    rewrite Hget, Hed. simpl. rewrite Hp. destruct w; reflexivity.
Qed.

End Clicks.

Lemma onClick_guards_witness :
  @onClick sample_host [("onClick", VFun 1); ("property", VStr "name")]
    (VRef 0) false world_editing
  = Some (tt, world_editing) /\
  @onClick sample_host [("onClick", VFun 1); ("property", VStr "name")]
    (VRef 0) false world_loaded
  = Some (tt, world_loaded).
Proof.
  pose proof (@onClick_guards sample_host
                [("onClick", VFun 1); ("property", VStr "name")] (VRef 0))
    as Hguards.
  split.
  - destruct (Hguards world_editing) as (_ & Hediting & _).
    apply (Hediting {| editing := true; added := false |});
      reflexivity.
  - destruct (Hguards world_loaded) as (_ & _ & _ & _ & Hcall).
    destruct (Hcall 1 (VStr "Ada") eq_refl eq_refl) as [_ Hcell].
    apply (Hcell new_DataStatus); reflexivity.
Defined.

(* ================================================================== *)
(** * The class and style objects of a cell *)
(* ================================================================== *)

Lemma keys_set_prop (ps : props) (k k' : string) (v : jsval) :
  In k' (keys (set_prop ps k v)) <-> k' = k \/ In k' (keys ps).
Proof.
  induction ps as [|[k0 v0] ps IH]; simpl.
  - intuition congruence.
  - destruct (String.eqb_spec k0 k) as [->|Hne]; simpl.
    + intuition congruence.
    + rewrite IH. tauto.
Qed.


(** [Object.assign(target, src)]: a property of the source has the
    source's value, any other property the target's. *)
Lemma get_prop_Object_assign (target src : props) (k : string) :
  NoDup (keys src) ->
  (In k (keys src) -> get_prop (Object_assign target src) k = get_prop src k) /\
  (~ In k (keys src) ->
   get_prop (Object_assign target src) k = get_prop target k).
Proof.
  unfold Object_assign. revert target.
  induction src as [|[k0 v0] src IH]; simpl; intros target Hnd.
  - tauto.
  - apply NoDup_cons in Hnd as [Hnotin Hnd].
    rewrite list_elem_of_In in Hnotin.
    destruct (IH (set_prop target k0 v0) Hnd) as [IHin IHout].
    destruct (String.eqb_spec k0 k) as [->|Hne].
    + split; [|tauto]. intros _.
      rewrite IHout by assumption. apply get_prop_set_prop_eq.
    + split.
      * intros [->|Hin]; [congruence|]. auto.
      * intros Hout. rewrite IHout by tauto.
        apply get_prop_set_prop_ne. assumption.
Qed.

Section CellObjects.
Context `{HostEnv} `{AlignEnum}.






(** X7.  [getCellCssStyle] returns an object with [justify-content], from the
    column's alignment, and [display: flex], and nothing else, when the
    column has no [ngStyle].  When it has one, [ngStyle] is called once,
    on the element's property and the element, and the object returned
    has every property of the result with the result's value, so that a
    [display] or [justify-content] of the result replaces the default
    one, and any other property as in the default object. *)
Theorem getCellCssStyle_style (tcol : props) (element : jsval) (w : World) :
  let defaultStyle :=
    [("justify-content", VStr (getAlign (get_prop tcol "align")));
     ("display", VStr "flex")] in
  (truthy (get_prop tcol "ngStyle") = false ->
   getCellCssStyle tcol element w = Some (defaultStyle, w)) /\
  (forall (f : nat) (p : jsval),
      get_prop tcol "ngStyle" = VFun f ->
      get_member (mem w) element (to_key (mem w) (get_prop tcol "property"))
      = Some p ->
      let ngStyle := fst (host_call f [p; element] (mem w)) in
      let h := snd (host_call f [p; element] (mem w)) in
      NoDup (keys (own_enumerable h ngStyle)) ->
      exists style : props,
        getCellCssStyle tcol element w
        = Some (style, {| this := this w; mem := h; out := out w |}) /\
        (forall k : string,
            In k (keys (own_enumerable h ngStyle)) ->
            get_prop style k = get_prop (own_enumerable h ngStyle) k) /\
        (forall k : string,
            ~ In k (keys (own_enumerable h ngStyle)) ->
            get_prop style k = get_prop defaultStyle k)).
Proof.
  intros defaultStyle. unfold getCellCssStyle. fold defaultStyle.
  clearbody defaultStyle. split.
  { intros Hno. rewrite Hno. reflexivity. }
  intros f p Hf Hp. rewrite Hf. simpl.
  unfold member, call. unfold_M. simpl. rewrite Hp. simpl.
  intros Hnd. eexists. split; [reflexivity|].
  split; intros k Hk; apply get_prop_Object_assign; assumption.
Qed.

End CellObjects.

Lemma getCellCssStyle_style_witness :
  exists style : props,
    @getCellCssStyle sample_host sample_align
      [("ngStyle", VFun 2); ("property", VStr "name")] (VRef 0) world_loaded
    = Some (style, world_loaded) /\
    (forall k : string,
        In k ["0"] -> get_prop style k = get_prop [("0", VStr "x")] k) /\
    (forall k : string,
        ~ In k ["0"] ->
        get_prop style k
        = get_prop [("justify-content", VStr "flex-end");
                    ("display", VStr "flex")] k).
Proof.
  destruct (@getCellCssStyle_style sample_host sample_align
              [("ngStyle", VFun 2); ("property", VStr "name")] (VRef 0)
              world_loaded) as [_ Hcall].
  apply (Hcall 2 (VStr "Ada") eq_refl eq_refl).
  apply NoDup_cons_2; [apply not_elem_of_nil | constructor].
Defined.


(* ================================================================== *)
(** * The ids of the displayed columns and the sorting accessor *)
(* ================================================================== *)

Lemma header_id_segment (i : nat) (s : string) :
  split "_" (toString_nat i +:+ "_" +:+ s) !! 0 = Some (toString_nat i).
Proof.
  unfold toString_nat. rewrite split_digits.
  change ("_" +:+ s) with (String "_" s).
  cbn [split]. rewrite Ascii.eqb_refl. cbn [hd tl].
  rewrite append_empty_r. reflexivity.
Qed.

Lemma toString_nat_inj (i j : nat) : toString_nat i = toString_nat j -> i = j.
Proof.
  intros Heq. apply (f_equal toNumber) in Heq.
  rewrite !toNumber_toString_nat in Heq. congruence.
Qed.

Lemma canonical_index_toString_nat (i : nat) :
  canonical_index (toString_nat i) = Some i.
Proof.
  unfold canonical_index. rewrite toNumber_toString_nat. simpl.
  rewrite String.eqb_refl. reflexivity.
Qed.

Lemma map_from_lookup {A B} (f : A -> nat -> B) (l : list A) (i j : nat) :
  map_from i f l !! j = (fun x => f x (i + j)) <$> l !! j.
Proof.
  revert i j. induction l as [|x l IH]; intros i j; simpl.
  - reflexivity.
  - destruct j as [|j]; simpl.
    + rewrite Nat.add_0_r. reflexivity.
    + rewrite IH. rewrite Nat.add_succ_r. reflexivity.
Qed.

Lemma length_map_from {A B} (f : A -> nat -> B) (l : list A) (i : nat) :
  List.length (map_from i f l) = List.length l.
Proof.
  revert i. induction l as [|x l IH]; intros i; simpl; [|rewrite IH];
    reflexivity.
Qed.

(** The ids [i + '_' + property] of a list of columns are pairwise
    distinct, and none of them is ['actions']. *)
Lemma header_ids_NoDup (key : props -> string) (cols : list props) :
  let shown := map_i (fun col i => toString_nat i +:+ "_" +:+ key col) cols in
  NoDup shown /\ ~ In "actions" shown.
Proof.
  intros shown. unfold shown, map_i. split.
  - apply NoDup_alt. intros i j id Hi Hj.
    rewrite map_from_lookup in Hi, Hj. simpl in Hi, Hj.
    destruct (cols !! i) as [ci|]; [|discriminate].
    destruct (cols !! j) as [cj|]; [|discriminate].
    simpl in Hi, Hj. injection Hi as <-. injection Hj as Hj.
    pose proof (header_id_segment j (key cj)) as Hsj.
    rewrite Hj, header_id_segment in Hsj.
    injection Hsj as Hsj. apply toString_nat_inj. assumption.
  - intros Hin. apply list_elem_of_In, list_elem_of_lookup in Hin
      as [i Hi].
    rewrite map_from_lookup in Hi. simpl in Hi.
    destruct (cols !! i) as [ci|]; [|discriminate].
    simpl in Hi. injection Hi as Hi.
    pose proof (header_id_segment i (key ci)) as Hs. rewrite Hi in Hs.
    cbn in Hs. injection Hs as Hs.
    apply (f_equal toNumber) in Hs.
    rewrite toNumber_toString_nat in Hs. vm_compute in Hs. discriminate.
Qed.

Section HeaderIds.
Context `{HostEnv} `{Runtime}.

Lemma recreateDataSource_spec (w : World) :
  exists w' : World,
    recreateDataSource w = Some (tt, w') /\
    dataSource (this w')
    = Some {| ds_id := nextId (this w); ds_data := None;
              ds_filter := ""; ds_paginator := paginator (this w);
              ds_sort := sorting (this w);
              ds_sortCols := if sorting (this w)
                             then Some (getDisplayedCols (columns (this w)))
                             else None |} /\
    displayedColumns (this w')
    = (let shown :=
         map_i (fun col i =>
                  toString_nat i +:+ "_"
                  +:+ to_key (mem w) (get_prop col "property"))
           (getDisplayedCols (columns (this w))) in
       if editable (this w) || addable (this w) || deletable (this w)
       then shown ++ ["actions"] else shown).
Proof.
  unfold recreateDataSource. unfold_M. simpl.
  eexists. split; [reflexivity|]. simpl. split; reflexivity.
Qed.

Lemma header_id_lookup (key : props -> string) (cols : list props)
    (rest : list string) (i : nat) (col : props) :
  cols !! i = Some col ->
  (map_i (fun col i => toString_nat i +:+ "_" +:+ key col) cols ++ rest) !! i
  = Some (toString_nat i +:+ "_" +:+ key col).
Proof.
  intros Hcol. rewrite lookup_app_l.
  - unfold map_i. rewrite map_from_lookup, Hcol. reflexivity.
  - unfold map_i. rewrite length_map_from. eapply lookup_lt_Some. eassumption.
Qed.

(** X8.  [recreateDataSource] returns, and the ids it leaves in
    [displayedColumns] are those of the visible columns, in their order,
    the id of the i-th being [i + '_' + property], followed by ['actions']
    exactly when the table is editable, addable or deletable.  No id
    occurs twice, also when two visible columns show the same
    property. *)
Theorem displayedColumns_distinct (w : World) :
  exists w' : World,
    recreateDataSource w = Some (tt, w') /\
    let visible := getDisplayedCols (columns (this w)) in
    let actions :=
      editable (this w) || addable (this w) || deletable (this w) in
    List.length (displayedColumns (this w'))
    = List.length visible + (if actions then 1 else 0) /\
    (forall (i : nat) (col : props),
        visible !! i = Some col ->
        displayedColumns (this w') !! i
        = Some (toString_nat i +:+ "_"
                +:+ to_key (mem w) (get_prop col "property"))) /\
    (In "actions" (displayedColumns (this w')) <-> actions = true) /\
    (actions = true ->
     displayedColumns (this w') !! List.length visible = Some "actions") /\
    NoDup (displayedColumns (this w')).
Proof.
  unfold recreateDataSource. unfold_M. simpl.
  eexists. split; [reflexivity|]. simpl.
  set (visible := getDisplayedCols (columns (this w))).
  destruct (header_ids_NoDup
              (fun col : props => to_key (mem w) (get_prop col "property"))
              visible) as [Hnd Hactions].
  cbv beta in Hnd, Hactions.
  set (shown := map_i
                  (fun col i =>
                     toString_nat i +:+ "_"
                     +:+ to_key (mem w) (get_prop col "property"))
                  visible) in *.
  assert (Hlen : List.length shown = List.length visible)
    by apply length_map_from.
  assert (Hshown : forall i col, visible !! i = Some col ->
            shown !! i
            = Some (toString_nat i +:+ "_"
                    +:+ to_key (mem w) (get_prop col "property"))).
  { intros i col Hcol. unfold shown, map_i.
    rewrite map_from_lookup, Hcol. reflexivity. }
  destruct (editable (this w) || addable (this w) || deletable (this w)).
  - split; [rewrite length_app, Hlen; reflexivity|].
    split.
    { intros i col Hcol. rewrite lookup_app_l.
      - apply Hshown. assumption.
      - rewrite Hlen. eapply lookup_lt_Some. eassumption. }
    split; [split; [reflexivity|]; intros _; apply in_or_app; right;
            left; reflexivity|].
    split.
    { intros _. rewrite lookup_app_r by lia.
      rewrite Hlen, Nat.sub_diag. reflexivity. }
    apply NoDup_app. split; [assumption|]. split.
    + intros x Hx Hx'. apply list_elem_of_In in Hx, Hx'.
      destruct Hx' as [<-|[]]. tauto.
    + apply NoDup_cons_2; [apply not_elem_of_nil | constructor].
  - split; [rewrite Hlen; lia|].
    split; [exact Hshown|].
    split; [split; [tauto | discriminate]|].
    split; [discriminate | assumption].
Qed.

(** X9.  With [sorting] on, [recreateDataSource] installs a sorting accessor
    that finds its column by the digits before the first underscore of
    the header id: for the id that [displayedColumns] has at the place of
    the i-th visible column it finds that very column, whatever the name
    of the property (underscores included), and for such a column without
    a [sortTransform], whose property of the row is neither a date nor
    another object, it returns the property as it is and changes
    nothing. *)
Theorem sortingDataAccessor_resolves_header (w : World) :
  sorting (this w) = true ->
  exists (w' : World) (ds : MatTableDataSource) (visibleCols : list props),
    recreateDataSource w = Some (tt, w') /\
    dataSource (this w') = Some ds /\
    ds_sortCols ds = Some visibleCols /\
    forall (i : nat) (tcol : props),
      getDisplayedCols (columns (this w)) !! i = Some tcol ->
      exists id : string,
        displayedColumns (this w') !! i = Some id /\
        visibleCols_at visibleCols (default "" (split "_" id !! 0))
        = Some tcol /\
        forall (data p : jsval) (w0 : World),
          truthy (get_prop tcol "sortTransform") = false ->
          get_member (mem w0) data
            (to_key (mem w0) (get_prop tcol "property")) = Some p ->
          date_time (mem w0) p = None ->
          typeof_object p = false ->
          sortingDataAccessor visibleCols data id w0 = Some (p, w0).
Proof.
  intros Hsorting.
  destruct (recreateDataSource_spec w) as (w' & Hrun & Hds & Hids).
  rewrite Hsorting in Hds. cbv zeta in Hids.
  exists w'.
  eexists. eexists. split; [exact Hrun|]. split; [exact Hds|].
  split; [reflexivity|].
  intros i tcol Hcol. eexists. split.
  { rewrite Hids.
    destruct (editable (this w) || addable (this w) || deletable (this w)).
    - apply (header_id_lookup
               (fun col => to_key (mem w) (get_prop col "property"))).
      exact Hcol.
    - rewrite <- (app_nil_r (map_i _ _)).
      apply (header_id_lookup
               (fun col => to_key (mem w) (get_prop col "property"))).
      exact Hcol. }
  assert (Hat : visibleCols_at (getDisplayedCols (columns (this w)))
                  (default ""
                     (split "_"
                        (toString_nat i +:+ "_"
                         +:+ to_key (mem w) (get_prop tcol "property"))
                      !! 0))
                = Some tcol).
  { rewrite header_id_segment. simpl. unfold visibleCols_at.
    rewrite canonical_index_toString_nat. exact Hcol. }
  split; [exact Hat|].
  intros data p w0 Hno Hp Hdate Hobj.
  unfold sortingDataAccessor. rewrite Hat, Hno.
  unfold member. unfold_M. simpl. rewrite Hp. simpl. rewrite Hdate, Hobj.
  rewrite andb_false_r. reflexivity.
Qed.

(** X10.  For a header id whose digits name no visible column (a column that
    went away since the header was drawn) the sorting accessor returns
    the empty string; it does not look at the row, which may be anything,
    and changes nothing. *)
Theorem sortingDataAccessor_stale_header (visibleCols : list props)
    (data : jsval) (i : nat) (property : string) (w : World) :
  List.length visibleCols <= i ->
  sortingDataAccessor visibleCols data (toString_nat i +:+ "_" +:+ property) w
  = Some (VStr "", w).
Proof.
  intros Hlen. unfold sortingDataAccessor.
  rewrite header_id_segment. simpl. unfold visibleCols_at.
  rewrite canonical_index_toString_nat.
  rewrite lookup_ge_None_2 by lia. reflexivity.
Qed.

End HeaderIds.

Lemma sortingDataAccessor_resolves_header_witness :
  exists (w' : World) (ds : MatTableDataSource) (visibleCols : list props),
    @recreateDataSource sample_host world_sorting = Some (tt, w') /\
    dataSource (this w') = Some ds /\
    ds_sortCols ds = Some visibleCols /\
    exists id : string,
      displayedColumns (this w') !! 0 = Some id /\
      @sortingDataAccessor sample_host sample_runtime visibleCols (VRef 0) id
        world_sorting
      = Some (VStr "Ada", world_sorting).
Proof.
  destruct (@sortingDataAccessor_resolves_header sample_host sample_runtime
              world_sorting eq_refl)
    as (w' & ds & visibleCols & Hrun & Hds & Hcols & Hcol).
  exists w', ds, visibleCols.
  split; [exact Hrun|]. split; [exact Hds|]. split; [exact Hcols|].
  destruct (Hcol 0 name_column eq_refl) as (id & Hid & _ & Hplain).
  exists id. split; [exact Hid|].
  apply Hplain; reflexivity.
Defined.

Lemma sortingDataAccessor_stale_header_witness :
  @sortingDataAccessor sample_host sample_runtime [name_column] VUndefined
    (toString_nat 1 +:+ "_" +:+ "name") world_sorting
  = Some (VStr "", world_sorting).
Proof.
  apply (@sortingDataAccessor_stale_header sample_host sample_runtime).
  simpl. lia.
Defined.

(* ================================================================== *)
(** * Filtering rows that miss a property *)
(* ================================================================== *)

Section MissingProperty.
Context `{HostEnv}.




End MissingProperty.


(* ================================================================== *)
(** * After a column change *)
(* ================================================================== *)

Lemma reset_statuses_as_keys (l m : list (jsval * DataStatus)) :
  fold_left (fun m entry => Map_set m (fst entry) new_DataStatus) l m
  = fold_left (fun m d => Map_set m d new_DataStatus) (map fst l) m.
Proof.
  revert m. induction l as [|e l IH]; intros m; simpl; [|rewrite IH];
    reflexivity.
Qed.

Lemma Map_get_is_key (m : list (jsval * DataStatus)) (k : jsval) :
  is_Some (Map_get m k) <-> In k (map fst m).
Proof.
  induction m as [|[k0 v0] m IH]; simpl.
  - split; [intros [? ?]; discriminate | tauto].
  - destruct (decide (k0 = k)) as [->|Hne].
    + split; eauto.
    + rewrite IH. intuition congruence.
Qed.

Lemma In_Map_delete (m : list (jsval * DataStatus)) (k k' : jsval)
    (st : DataStatus) :
  In (k, st) (Map_delete m k') -> In (k, st) m.
Proof.
  induction m as [|[k0 v0] m IH]; simpl; [tauto|].
  destruct (decide (k0 = k')); simpl; intuition.
Qed.

(** Deleting a key takes its first entry away, and leaves any other entry
    under the key. *)
Lemma Map_delete_later_entry (m : list (jsval * DataStatus)) (k : jsval)
    (st st' : DataStatus) :
  Map_get m k = Some st -> In (k, st') m -> st' <> st ->
  In k (map fst (Map_delete m k)).
Proof.
  induction m as [|[k0 v0] m IH]; simpl; [discriminate|].
  destruct (decide (k0 = k)) as [->|Hne].
  - intros [= ->] [Heq|Hin] Hdiff; [congruence|].
    apply (in_map fst) in Hin. exact Hin.
  - intros Hget [Heq|Hin] Hdiff; [congruence|].
    simpl. right. eauto.
Qed.

Section AfterColumnChange.
Context `{HostEnv}.

(** The key that the loop of [clearAddedEntry] leaves in [toDelete] is
    the one it started with or the key of an entry that carries
    [added]. *)
Lemma clearAdded_loop_key (entries : list (jsval * DataStatus))
    (start : jsval * list jsval) :
  fst (clearAdded_loop entries start) = fst start \/
  exists st : DataStatus,
    In (fst (clearAdded_loop entries start), st) entries /\ added st = true.
Proof.
  unfold clearAdded_loop. revert start.
  induction entries as [|[k st] entries IH]; intros start; simpl; [auto|].
  destruct (added st) eqn:Hadded.
  - match goal with |- context [fold_left ?f entries ?s] =>
      destruct (IH s) as [Heq|(st' & Hin & Hst')] end.
    + right. exists st. rewrite Heq. simpl. auto.
    + right. exists st'. auto.
  - destruct (IH start) as [Heq|(st' & Hin & Hst')]; [auto|].
    right. exists st'. auto.
Qed.

Lemma cleared_statuses_keeps (c : Component) (k : jsval) (st : DataStatus) :
  Map_get (dataStatus c) k = Some st -> added st = false ->
  In k (map fst (cleared_statuses c)).
Proof.
  intros Hget Hst. unfold cleared_statuses.
  destruct (truthy _) eqn:Htruthy;
    [|apply Map_get_is_key; eauto].
  destruct (clearAdded_loop_key (dataStatus c) (VUndefined, data c))
    as [Heq|(st' & Hin & Hst')].
  - rewrite Heq in Htruthy. discriminate.
  - set (k' := fst (clearAdded_loop (dataStatus c) (VUndefined, data c)))
      in *.
    destruct (decide (k' = k)) as [->|Hne].
    + eapply Map_delete_later_entry; eauto. congruence.
    + apply Map_get_is_key. rewrite Map_get_delete_ne by assumption. eauto.
Qed.

Lemma cleared_statuses_In (c : Component) (k : jsval) (st : DataStatus) :
  In (k, st) (cleared_statuses c) -> In (k, st) (dataStatus c).
Proof.
  unfold cleared_statuses. destruct (truthy _); [|auto].
  apply In_Map_delete.
Qed.

(** The run of [ngDoCheck] when the check finds a difference. *)
Lemma ngDoCheck_changed (w : World) :
  checkForDifferences_of (oldColumns (this w)) (columns (this w)) = true ->
  exists w' : World,
    ngDoCheck w = Some (tt, w') /\
    dataStatus (this w')
    = fold_left (fun m entry => Map_set m (fst entry) new_DataStatus)
        (cleared_statuses (this w)) (cleared_statuses (this w)) /\
    formControls (this w') = [] /\
    currentlyAdding (this w') = false /\
    active (matSort (this w')) = "" /\
    oldColumns (this w')
    = map (fun col => Object_assign [] col) (columns (this w)) /\
    columns (this w') = columns (this w) /\
    nextId (this w') = S (nextId (this w)) /\
    (exists ds, dataSource (this w') = Some ds /\
                ds_id ds = nextId (this w)) /\
    mem w' = mem w /\ out w' = out w.
Proof.
  intros Hdiff. unfold ngDoCheck, checkForDifferences. unfold_M. simpl.
  rewrite Hdiff.
  unfold prepareForColChange, clearAddedEntry, turnOffSorting,
    recreateDataSource, cleanUpAfterColChange, cleared_statuses.
  unfold_M. simpl.
  destruct (truthy _); simpl;
    destruct (String.eqb (active (matSort (this w))) "") eqn:Hactive;
    simpl; eexists; (split; [reflexivity|]); simpl;
    repeat (split; [reflexivity|]);
    try (apply String.eqb_eq in Hactive);
    repeat (split; [first [reflexivity | assumption]|]); eauto.
Qed.

Lemma ngDoCheck_unchanged (w : World) :
  checkForDifferences_of (oldColumns (this w)) (columns (this w)) = false ->
  ngDoCheck w = Some (tt, w).
Proof.
  intros Hsame. unfold ngDoCheck, checkForDifferences. unfold_M. simpl.
  rewrite Hsame. reflexivity.
Qed.

Lemma keys_Object_assign (target src : props) (k : string) :
  In k (keys (Object_assign target src)) <->
  In k (keys target) \/ In k (keys src).
Proof.
  unfold Object_assign. revert target.
  induction src as [|[k0 v0] src IH]; intros target; simpl; [tauto|].
  rewrite IH, keys_set_prop. intuition congruence.
Qed.

Lemma strict_eq_refl (v : jsval) : v <> VNaN -> strict_eq v v = true.
Proof.
  intros Hv. destruct v; simpl;
    first [congruence | apply bool_decide_eq_true_2; reflexivity].
Qed.

(** The copies that [cleanUpAfterColChange] saves do not differ from the
    columns they were made of, unless a column has a property that is
    [NaN]. *)
Lemma saved_copies_same (cols : list props) :
  (forall col, In col cols ->
     NoDup (keys col) /\ forall key, get_prop col key <> VNaN) ->
  checkForDifferences_of (map (fun col => Object_assign [] col) cols) cols
  = false.
Proof.
  intros Hcols. apply not_true_is_false.
  rewrite checkForDifferences_of_spec.
  intros [Hlen|(i & col & copy & key & Hcol & Hcopy & Hkey & Hne)].
  - rewrite length_map in Hlen. congruence.
  - rewrite list_lookup_fmap, Hcol in Hcopy. simpl in Hcopy.
    injection Hcopy as <-.
    destruct (Hcols col) as [Hnd Hnan].
    { apply list_elem_of_In, list_elem_of_lookup. eauto. }
    apply keys_Object_assign in Hkey as [[]|Hkey].
    rewrite (proj1 (get_prop_Object_assign [] col key Hnd) Hkey) in Hne.
    rewrite strict_eq_refl in Hne by apply Hnan. discriminate.
Qed.

Lemma saved_copies_NaN (cols : list props) (col : props) (key : string) :
  In col cols -> In key (keys col) -> get_prop col key = VNaN ->
  checkForDifferences_of (map (fun col => Object_assign [] col) cols) cols
  = true.
Proof.
  intros Hcol Hkey Hnan. apply checkForDifferences_of_spec. right.
  apply list_elem_of_In, list_elem_of_lookup in Hcol as [i Hi].
  exists i, col, (Object_assign [] col), key.
  split; [exact Hi|].
  split; [rewrite list_lookup_fmap, Hi; reflexivity|].
  split; [apply keys_Object_assign; right; exact Hkey|].
  rewrite Hnan. destruct (get_prop (Object_assign [] col) key); reflexivity.
Qed.

(** X12.  When [ngDoCheck] finds the columns changed, it returns, and then:
    every status that the row-status map gives is a fresh one, so that no
    row is in editing; it gives one only for rows that had one, and for
    every row whose status did not carry [added]; the form-control map
    is empty; [currentlyAdding] is off; no sort is active; the saved
    copies are those of the columns as they are now; and the columns, the
    heap and the event log are as they were. *)
Theorem ngDoCheck_column_change_resets (w : World) :
  differs_on_saved_keys (columns (this w)) (oldColumns (this w)) ->
  exists w' : World,
    ngDoCheck w = Some (tt, w') /\
    (forall (k : jsval) (st : DataStatus),
        Map_get (dataStatus (this w')) k = Some st ->
        st = new_DataStatus /\ is_Some (Map_get (dataStatus (this w)) k)) /\
    (forall (k : jsval) (st : DataStatus),
        Map_get (dataStatus (this w)) k = Some st -> added st = false ->
        Map_get (dataStatus (this w')) k = Some new_DataStatus) /\
    formControls (this w') = [] /\
    currentlyAdding (this w') = false /\
    active (matSort (this w')) = "" /\
    oldColumns (this w')
    = map (fun col => Object_assign [] col) (columns (this w)) /\
    columns (this w') = columns (this w) /\
    mem w' = mem w /\ out w' = out w.
Proof.
  intros Hdiff. apply checkForDifferences_of_spec in Hdiff.
  destruct (ngDoCheck_changed w Hdiff)
    as (w' & Hrun & Hst & Hfc & Hca & Hact & Hold & Hcols & _ & _ & Hmem
        & Hout).
  exists w'. split; [exact Hrun|].
  rewrite Hst, reset_statuses_as_keys.
  split.
  { intros k st Hget.
    assert (Hkey : In k (map fst (cleared_statuses (this w)))).
    { apply Map_get_In in Hget.
      apply fresh_statuses_In in Hget as [Hin|[Hin _]]; [|exact Hin].
      apply (in_map fst) in Hin. exact Hin. }
    rewrite (fresh_statuses_get _ _ _ Hkey) in Hget. injection Hget as <-.
    split; [reflexivity|].
    apply Map_get_is_key.
    apply in_map_iff in Hkey as ([k0 st0] & <- & Hin).
    apply cleared_statuses_In in Hin.
    apply (in_map fst) in Hin. exact Hin. }
  split.
  { intros k st Hget Hadded. apply fresh_statuses_get.
    eapply cleared_statuses_keeps; eauto. }
  repeat (split; [assumption|]). assumption.
Qed.

(** X13.  After a run of [ngDoCheck], a second run right after it finds no
    difference and leaves the world as it is, provided no column has a
    property whose value is [NaN] (each column being an object, with each
    of its properties once). *)
Theorem ngDoCheck_settles (w w' : World) :
  (forall col, In col (columns (this w)) ->
     NoDup (keys col) /\ forall key, get_prop col key <> VNaN) ->
  ngDoCheck w = Some (tt, w') ->
  ngDoCheck w' = Some (tt, w').
Proof.
  intros Hcols Hrun.
  destruct (checkForDifferences_of (oldColumns (this w)) (columns (this w)))
    eqn:Hchk.
  - destruct (ngDoCheck_changed w Hchk)
      as (w1 & Hrun1 & _ & _ & _ & _ & Hold & Hsame & _).
    rewrite Hrun in Hrun1. injection Hrun1 as <-.
    apply ngDoCheck_unchanged. rewrite Hold, Hsame.
    apply saved_copies_same. exact Hcols.
  - rewrite (ngDoCheck_unchanged w Hchk) in Hrun. injection Hrun as <-.
    apply ngDoCheck_unchanged. exact Hchk.
Qed.

(** X14.  A column with a property whose value is [NaN] never settles: once
    [ngDoCheck] has rebuilt the data source and saved its copies, the
    next run finds the copy different from the column ([NaN !== NaN]) and
    rebuilds again. *)
Theorem ngDoCheck_NaN_never_settles (w w' : World) (col : props)
    (key : string) :
  ngDoCheck w = Some (tt, w') ->
  rebuilds ngDoCheck w ->
  In col (columns (this w)) -> In key (keys col) ->
  get_prop col key = VNaN ->
  rebuilds ngDoCheck w'.
Proof.
  intros Hrun (w0 & ds0 & Hrun0 & _ & _ & Hnext0) Hcol Hkey Hnan.
  rewrite Hrun in Hrun0. injection Hrun0 as <-.
  destruct (checkForDifferences_of (oldColumns (this w)) (columns (this w)))
    eqn:Hchk.
  - destruct (ngDoCheck_changed w Hchk)
      as (w1 & Hrun1 & _ & _ & _ & _ & Hold & Hsame & _).
    rewrite Hrun in Hrun1. injection Hrun1 as <-.
    assert (Hagain : checkForDifferences_of (oldColumns (this w'))
                       (columns (this w')) = true).
    { rewrite Hold, Hsame. eapply saved_copies_NaN; eauto. }
    destruct (ngDoCheck_changed w' Hagain)
      as (w2 & Hrun2 & _ & _ & _ & _ & _ & _ & Hnext & (ds & Hds & Hid) & _).
    exists w2, ds. auto.
  - rewrite (ngDoCheck_unchanged w Hchk) in Hrun. injection Hrun as <-.
    lia.
Qed.

End AfterColumnChange.

Lemma get_prop_value (ps : props) (k : string) :
  get_prop ps k = VUndefined \/ In (get_prop ps k) (map snd ps).
Proof.
  induction ps as [|[k0 v0] ps IH]; simpl; [auto|].
  destruct (String.eqb k0 k); [auto | tauto].
Qed.

Lemma name_column_well_formed (col : props) :
  In col [name_column] ->
  NoDup (keys col) /\ forall key, get_prop col key <> VNaN.
Proof.
  intros [<-|[]]. split.
  - apply (bool_decide_unpack _). vm_compute. exact I.
  - intros key Hnan.
    destruct (get_prop_value name_column key) as [Hu|Hin]; [congruence|].
    rewrite Hnan in Hin. simpl in Hin. intuition discriminate.
Qed.

Lemma ngDoCheck_column_change_resets_witness :
  exists w' : World,
    @ngDoCheck sample_host world_bound = Some (tt, w') /\
    formControls (this w') = [] /\
    oldColumns (this w') = columns (this world_bound).
Proof.
  destruct (@ngDoCheck_column_change_resets sample_host world_bound)
    as (w' & Hrun & _ & _ & Hfc & _ & _ & Hold & _).
  - left. simpl. lia.
  - exists w'. auto.
Defined.

Lemma ngDoCheck_settles_witness :
  @ngDoCheck sample_host (after (@ngDoCheck sample_host) world_bound)
  = Some (tt, after (@ngDoCheck sample_host) world_bound).
Proof.
  apply (@ngDoCheck_settles sample_host world_bound).
  - exact name_column_well_formed.
  - reflexivity.
Defined.

Lemma ngDoCheck_NaN_never_settles_witness :
  rebuilds (@ngDoCheck sample_host)
    (after (@ngDoCheck sample_host) world_nan_column).
Proof.
  apply (@ngDoCheck_NaN_never_settles sample_host world_nan_column _
           [("name", VStr "Name"); ("width", VNaN)] "width").
  - reflexivity.
  - eexists. eexists. split; [reflexivity|]. simpl. auto.
  - left. reflexivity.
  - right. left. reflexivity.
  - reflexivity.
Defined.

(* ================================================================== *)
(** * Adding a row, saving it, and the next data change *)
(* ================================================================== *)

Section AddAndSave.
Context `{HostEnv}.

(** The run of [startAddElement]: the created row is put in front of the
    rows, and the data array is then sorted where a sort is active. *)
Lemma startAddElement_run (f : nat) (w : World) :
  create (this w) = VFun f ->
  exists w' : World,
    startAddElement w = Some (tt, w') /\
    let created := host_call f [] (mem w) in
    let rows := fst created :: data (this w) in
    (data (this w'), mem w')
    = (if String.eqb (active (matSort (this w))) "" then (rows, snd created)
       else sortData (if sorting (this w)
                      then Some (getDisplayedCols (columns (this w)))
                      else None)
              (snd created) rows (matSort (this w))) /\
    dataStatus (this w')
    = Map_set (fold_left (fun m d => Map_set m d new_DataStatus) rows [])
        (fst created) {| editing := true; added := true |} /\
    formControls (this w') = [] /\
    currentlyAdding (this w') = true /\
    (exists ds : MatTableDataSource,
        dataSource (this w') = Some ds /\ ds_id ds = nextId (this w) /\
        ds_data ds = None) /\
    out w' = out w.
Proof.
  unfold startAddElement, call, recreateDataSource, cleanUpAfterDataChange,
    turnOffSorting, theDataSource.
  unfold_M. simpl. intros Hf. rewrite Hf. simpl.
  destruct (String.eqb (active (matSort (this w))) ""); simpl;
    eexists; (split; [reflexivity|]); simpl;
    (split; [first [reflexivity | symmetry; apply surjective_pairing]|]);
    (split; [reflexivity|]); (split; [reflexivity|]);
    (split; [reflexivity|]); (split; [|reflexivity]);
    (eexists; split; [reflexivity | split; reflexivity]).
Qed.

(** X15.  [startAddElement] ends every editing that was going on: afterwards
    the form-control map is empty, the row-status map gives a status for
    the created element, which is in editing and added, and for the rows
    of the data array, which all have a fresh status, and for nothing
    else; [currentlyAdding] is on.  The data array holds the created
    element and the rows it had: with the created element in front when
    no sort is active, and in the order the sort has put them otherwise;
    the new data source holds that very array.  [startAddElement]
    returns whenever [create] is a function. *)
Theorem startAddElement_discards_edits (f : nat) (w : World) :
  create (this w) = VFun f ->
  exists (w' : World) (ele : jsval) (ds : MatTableDataSource),
    startAddElement w = Some (tt, w') /\
    ele = fst (host_call f [] (mem w)) /\
    Permutation (data (this w')) (ele :: data (this w)) /\
    (active (matSort (this w)) = "" ->
     data (this w') = ele :: data (this w)) /\
    dataSource (this w') = Some ds /\
    ds_rows (this w') ds = data (this w') /\
    formControls (this w') = [] /\
    currentlyAdding (this w') = true /\
    Map_get (dataStatus (this w')) ele
    = Some {| editing := true; added := true |} /\
    (forall row : jsval,
        In row (data (this w)) -> row <> ele ->
        Map_get (dataStatus (this w')) row = Some new_DataStatus) /\
    (forall row : jsval,
        is_Some (Map_get (dataStatus (this w')) row) ->
        row = ele \/ In row (data (this w))).
Proof.
  intros Hf.
  destruct (startAddElement_run f w Hf)
    as (w' & Hrun & Hdata & Hst & Hfc & Hadding & (ds & Hds & _ & Hshared)
        & _).
  cbv zeta in Hdata, Hst.
  set (ele := fst (host_call f [] (mem w))) in *.
  exists w', ele, ds.
  split; [exact Hrun|]. split; [reflexivity|].
  split; [|split].
  { destruct (String.eqb (active (matSort (this w))) "").
    - injection Hdata as -> _. reflexivity.
    - apply (f_equal fst) in Hdata. simpl in Hdata. rewrite Hdata.
      apply sortData_permutes. }
  { intros Hoff. rewrite Hoff in Hdata. injection Hdata as -> _.
    reflexivity. }
  split; [exact Hds|].
  split; [unfold ds_rows; rewrite Hshared; reflexivity|].
  split; [exact Hfc|]. split; [exact Hadding|].
  rewrite Hst.
  split; [apply Map_get_set_eq|].
  split.
  - intros row Hrow Hne.
    rewrite Map_get_set_ne by congruence.
    apply fresh_statuses_get. right. exact Hrow.
  - intros row [st Hget].
    destruct (decide (row = ele)) as [->|Hne]; [auto|]. right.
    rewrite Map_get_set_ne in Hget by congruence.
    apply Map_get_In, fresh_statuses_In in Hget as [[]|[[Heq|Hin] _]];
      [congruence | exact Hin].
Qed.

(** X16.  Saving the row that [startAddElement] has just created while no
    sort is active, before a form control has been asked for, under
    whatever row index: when [deepCopy] throws on the created element, so
    does [saveElement]; otherwise [saveElement] takes the element out of
    the data array again, which is then as it was before the add, turns
    [currentlyAdding] off, logs the data array and emits [add] with the
    copy, and leaves everything else of the component, the row-status map
    with its entry for the created element included, as
    [startAddElement] left it. *)
Theorem saveElement_after_startAddElement (rowIndex f : nat) (w w1 : World) :
  create (this w) = VFun f ->
  active (matSort (this w)) = "" ->
  startAddElement w = Some (tt, w1) ->
  let ele := fst (host_call f [] (mem w)) in
  Map_get (dataStatus (this w1)) ele
  = Some {| editing := true; added := true |} /\
  match deepCopy_fuel stack_depth ele (mem w1) with
  | Some (copy, h) =>
      saveElement rowIndex ele w1
      = Some (tt, {| this := set_data (data (this w))
                               (set_currentlyAdding false (this w1));
                     mem := h;
                     out := out w ++ [ConsoleLog (data (this w));
                                      EmitAdd copy] |})
  | None => saveElement rowIndex ele w1 = None
  end.
Proof.
  intros Hf Hoff Hrun ele.
  destruct (startAddElement_run f w Hf)
    as (w' & Hrun' & Hdata & Hst & Hfc & _ & _ & Hout).
  rewrite Hrun in Hrun'. injection Hrun' as <-.
  cbv zeta in Hdata, Hst. fold ele in Hdata, Hst.
  rewrite Hoff in Hdata. simpl in Hdata. injection Hdata as Hdata _.
  assert (Hget : Map_get (dataStatus (this w1)) ele
                 = Some {| editing := true; added := true |})
    by (rewrite Hst; apply Map_get_set_eq).
  split; [exact Hget|].
  unfold saveElement, deepCopy, collectControls, iteratorToArray.
  unfold_M. rewrite Hfc. simpl.
  destruct (deepCopy_fuel stack_depth ele (mem w1)) as [[copy h]|];
    [|reflexivity].
  simpl. rewrite Hget. simpl. rewrite Hdata, Hout, <- app_assoc.
  reflexivity.
Qed.

Lemma array_indexOf_from_absent (l : list jsval) (x : jsval) (i : Z) :
  ~ In x l -> array_indexOf_from i l x = (-1)%Z.
Proof.
  revert i. induction l as [|y l IH]; intros i Hnotin; simpl; [reflexivity|].
  destruct (strict_eq y x) eqn:Heq.
  - exfalso. apply Hnotin. left.
    destruct y, x; cbv beta iota delta [strict_eq] in Heq;
      try discriminate; apply bool_decide_eq_true_1 in Heq; exact Heq.
  - apply IH. intros Hin. apply Hnotin. right. exact Hin.
Qed.

Lemma splice1_last (rows : list jsval) (last : jsval) :
  splice1 (-1) (rows ++ [last]) = rows.
Proof.
  unfold splice1. rewrite length_app. simpl.
  replace (Z.to_nat (Z.max (Z.of_nat (List.length rows + 1) + -1) 0))
    with (List.length rows) by lia.
  rewrite take_app_length.
  rewrite drop_ge by (rewrite length_app; simpl; lia).
  apply app_nil_r.
Qed.

(** What a data change does, given the rows that [clearAddedEntry]
    leaves. *)
Lemma ngOnChanges_run (changes : SimpleChanges) (w : World) :
  changes_data changes = true ->
  let rows := snd (clearAdded_loop (dataStatus (this w))
                     (VUndefined, data (this w))) in
  let cols := if sorting (this w)
              then Some (getDisplayedCols (columns (this w))) else None in
  exists (w' : World) (ds : MatTableDataSource),
    ngOnChanges changes w = Some (tt, w') /\
    dataSource (this w') = Some ds /\ ds_id ds = nextId (this w) /\
    ds_data ds = None /\ ds_sortCols ds = cols /\
    dataStatus (this w')
    = fold_left (fun m d => Map_set m d new_DataStatus) rows [] /\
    out w' = out w /\
    (active (matSort (this w)) = "" ->
     matSort (this w') = matSort (this w) /\
     data (this w') = rows /\ mem w' = mem w) /\
    (active (matSort (this w)) <> "" ->
     changes_columns changes = true ->
     matSort (this w') = {| active := ""; direction := "" |} /\
     data (this w') = rows /\ mem w' = mem w) /\
    (active (matSort (this w)) <> "" ->
     changes_columns changes = false ->
     matSort (this w') = matSort (this w) /\
     (data (this w'), mem w') = sortData cols (mem w) rows (matSort (this w))).
Proof.
  intros Hd rows cols. unfold ngOnChanges. rewrite Hd.
  unfold clearAddedEntry, recreateDataSource, cleanUpAfterDataChange,
    turnOffSorting, theDataSource.
  unfold_M. simpl. fold rows.
  destruct (String.eqb (active (matSort (this w))) "") eqn:Hact; simpl.
  - destruct (truthy _); simpl; repeat (rewrite Hact; simpl);
      apply String.eqb_eq in Hact; eexists; eexists;
      (split; [reflexivity|]); simpl;
      do 6 (split; [reflexivity|]);
      (split; [auto|]); split; congruence.
  - destruct (changes_columns changes); simpl;
      destruct (truthy _); simpl; repeat (rewrite Hact; simpl);
      apply String.eqb_neq in Hact;
      eexists; eexists;
      (split; [reflexivity|]); simpl;
      do 6 (split; [reflexivity|]);
      (split; [congruence|]); split; intros; try discriminate;
      (split; [reflexivity|]);
      first [split; reflexivity | symmetry; apply surjective_pairing].
Qed.

(** X17.  When the row-status map still has an element as added that the data
    array does not hold (which is how things are once the page has bound
    a new data array while a row was pending, or after the row was
    saved), [ngOnChanges] on a data change takes the last row out of the
    data array: the [indexOf] of the pending element is [-1], and
    [splice(-1, 1)] removes the last element.  The data array then holds
    the rows that are left, in their order unless a sort is active and
    the columns did not change, the new data source holds that array, and
    the row has no status unless it occurs among them. *)
Theorem ngOnChanges_drops_last_row (changes : SimpleChanges) (w : World)
    (ele last : jsval) (st : DataStatus) (rows : list jsval) :
  changes_data changes = true ->
  count_added (dataStatus (this w)) <= 1 ->
  Map_get (dataStatus (this w)) ele = Some st -> added st = true ->
  ~ In ele (data (this w)) ->
  data (this w) = rows ++ [last] ->
  exists (w' : World) (ds : MatTableDataSource),
    ngOnChanges changes w = Some (tt, w') /\
    Permutation (data (this w')) rows /\
    (active (matSort (this w)) = "" \/ changes_columns changes = true ->
     data (this w') = rows) /\
    dataSource (this w') = Some ds /\
    ds_rows (this w') ds = data (this w') /\
    (~ In last rows -> Map_get (dataStatus (this w')) last = None).
Proof.
  intros Hd Hle Hget Hst Hnotin Hdata.
  destruct (ngOnChanges_run changes w Hd)
    as (w' & ds & Hrun & Hds & _ & Hshared & _ & Hstatus & _
        & Hoff & Hcols & Hsort).
  rewrite (clearAdded_loop_pending _ _ ele st)
    in Hstatus, Hoff, Hcols, Hsort by eauto using Map_get_In.
  unfold array_indexOf in Hstatus, Hoff, Hcols, Hsort.
  rewrite array_indexOf_from_absent in Hstatus, Hoff, Hcols, Hsort
    by exact Hnotin.
  rewrite Hdata, splice1_last in Hstatus, Hoff, Hcols, Hsort.
  simpl in Hstatus, Hoff, Hcols, Hsort.
  exists w', ds. split; [exact Hrun|].
  assert (Hkept : active (matSort (this w)) = ""
                  \/ changes_columns changes = true ->
                  data (this w') = rows).
  { intros [Hact|Hch]; [apply Hoff; exact Hact|].
    destruct (String.eqb_spec (active (matSort (this w))) "") as [Hact|Hact];
      [apply Hoff | apply Hcols]; assumption. }
  split.
  { destruct (String.eqb_spec (active (matSort (this w))) "") as [Hact|Hact];
      [rewrite Hkept by auto; reflexivity|].
    destruct (changes_columns changes) eqn:Hch;
      [rewrite Hkept by auto; reflexivity|].
    destruct (Hsort Hact eq_refl) as [_ Hsorted].
    apply (f_equal fst) in Hsorted. simpl in Hsorted. rewrite Hsorted.
    apply sortData_permutes. }
  split; [exact Hkept|]. split; [exact Hds|].
  split; [unfold ds_rows; rewrite Hshared; reflexivity|].
  intros Hlast. rewrite Hstatus.
  destruct (Map_get _ last) as [st'|] eqn:Hlookup; [|reflexivity].
  apply Map_get_In, fresh_statuses_In in Hlookup as [[]|[Hin _]].
  tauto.
Qed.

(** X24.  What a data change does to the sort and to the order of the rows:
    with no sort active, [ngOnChanges] leaves [matSort] alone and the
    data array has the rows in their order; with a sort active and the
    columns changed as well, the sort is switched off and the rows keep
    their order; with a sort active and the columns unchanged, [matSort]
    is kept and the data array itself is sorted: it is then what
    [sortData] gives for the rows, in the heap that the sort leaves.  The
    new data source holds the data array in each case. *)
Theorem ngOnChanges_sorting (changes : SimpleChanges) (w : World) :
  changes_data changes = true ->
  let rows := snd (clearAdded_loop (dataStatus (this w))
                     (VUndefined, data (this w))) in
  let cols := if sorting (this w)
              then Some (getDisplayedCols (columns (this w))) else None in
  exists (w' : World) (ds : MatTableDataSource),
    ngOnChanges changes w = Some (tt, w') /\
    dataSource (this w') = Some ds /\
    ds_rows (this w') ds = data (this w') /\
    (active (matSort (this w)) = "" ->
     matSort (this w') = matSort (this w) /\
     data (this w') = rows /\ mem w' = mem w) /\
    (active (matSort (this w)) <> "" ->
     changes_columns changes = true ->
     matSort (this w') = {| active := ""; direction := "" |} /\
     data (this w') = rows /\ mem w' = mem w) /\
    (active (matSort (this w)) <> "" ->
     changes_columns changes = false ->
     matSort (this w') = matSort (this w) /\
     (data (this w'), mem w') = sortData cols (mem w) rows (matSort (this w))).
Proof.
  intros Hd rows cols.
  destruct (ngOnChanges_run changes w Hd)
    as (w' & ds & Hrun & Hds & _ & Hshared & _ & _ & _ & Hrest).
  exists w', ds. split; [exact Hrun|]. split; [exact Hds|].
  split; [unfold ds_rows; rewrite Hshared; reflexivity | exact Hrest].
Qed.

End AddAndSave.

Lemma startAddElement_discards_edits_witness :
  exists w' : World,
    @startAddElement sample_host world_sorted_desc = Some (tt, w') /\
    Permutation (data (this w')) (VRef 5 :: data (this world_sorted_desc)) /\
    data (this w') = [VRef 2; VRef 0; VRef 5] /\
    formControls (this w') = [] /\
    Map_get (dataStatus (this w')) (VRef 0) = Some new_DataStatus.
Proof.
  destruct (@startAddElement_discards_edits sample_host 0 world_sorted_desc
              eq_refl)
    as (w' & ele & ds & Hrun & -> & Hperm & _ & _ & _ & Hcontrols & _ & _
        & Hrows & _).
  exists w'. split; [exact Hrun|]. split; [exact Hperm|].
  split; [vm_compute in Hrun; injection Hrun as <-; reflexivity|].
  split; [exact Hcontrols|].
  apply Hrows; [left; reflexivity | discriminate].
Defined.

Lemma saveElement_after_startAddElement_witness :
  @saveElement sample_host 0 (VRef 5) world_adding
  = Some (tt, {| this := set_data (data (this world_loaded))
                           (set_currentlyAdding false (this world_adding));
                 mem := mem world_adding
                        ++ [Obj (KObject 0) []];
                 out := [ConsoleLog (data (this world_loaded));
                         EmitAdd (VRef 6)] |}).
Proof.
  apply (@saveElement_after_startAddElement sample_host 0 0 world_loaded
           world_adding eq_refl eq_refl eq_refl).
Defined.

Lemma ngOnChanges_drops_last_row_witness :
  exists (w' : World) (ds : MatTableDataSource),
    @ngOnChanges sample_host
      {| changes_data := true; changes_columns := false |}
      world_saved_rebound = Some (tt, w') /\
    data (this w') = [VRef 0; VRef 2] /\
    dataSource (this w') = Some ds /\
    Map_get (dataStatus (this w')) (VRef 6) = None.
Proof.
  destruct (@ngOnChanges_drops_last_row sample_host
              {| changes_data := true; changes_columns := false |}
              world_saved_rebound (VRef 5) (VRef 6)
              {| editing := true; added := true |} [VRef 0; VRef 2])
    as (w' & ds & Hrun & _ & Hdata & Hds & _ & Hlast).
  - reflexivity.
  - vm_compute. lia.
  - reflexivity.
  - reflexivity.
  - simpl. intuition discriminate.
  - reflexivity.
  - exists w', ds. split; [exact Hrun|].
    split; [apply Hdata; left; reflexivity|]. split; [exact Hds|].
    apply Hlast. simpl. intuition discriminate.
Defined.

Lemma ngOnChanges_sorting_witness :
  exists (w' : World) (ds : MatTableDataSource),
    @ngOnChanges sample_host
      {| changes_data := true; changes_columns := false |} world_sorted_desc
    = Some (tt, w') /\
    dataSource (this w') = Some ds /\
    ds_rows (this w') ds = [VRef 2; VRef 0] /\
    matSort (this w') = matSort (this world_sorted_desc) /\
    data (this w') = [VRef 2; VRef 0].
Proof.
  destruct (@ngOnChanges_sorting sample_host
              {| changes_data := true; changes_columns := false |}
              world_sorted_desc eq_refl)
    as (w' & ds & Hrun & Hds & Hshared & _ & _ & Hsort).
  destruct Hsort as [Hkept Hsorted]; [discriminate | reflexivity|].
  apply (f_equal fst) in Hsorted. simpl in Hsorted.
  exists w', ds. split; [exact Hrun|]. split; [exact Hds|].
  rewrite Hshared. split; [exact Hsorted|]. split; [exact Hkept|].
  exact Hsorted.
Defined.

(* ================================================================== *)
(** * Saving a row that the row-status map does not know *)
(* ================================================================== *)

Section SavingUnknownRow.
Context `{HostEnv}.

(** X19.  [saveElement] throws on an element that the row-status map does not
    know, unless one of the controls it collects for the row index is
    invalid (it then returns before it looks the element up). *)
Theorem saveElement_unknown_row_throws (rowIndex : nat) (oldElement : jsval)
    (w : World) :
  Map_get (dataStatus (this w)) oldElement = None ->
  (saveElement rowIndex oldElement w = None <->
   forallb (fun control => valid (snd control))
     (collectControls rowIndex (formControls (this w))) = true) /\
  (saveElement rowIndex oldElement w = None \/
   saveElement rowIndex oldElement w = Some (tt, w)).
Proof.
  intros Hnone.
  set (controls := collectControls rowIndex (formControls (this w))).
  assert (Hrun : saveElement rowIndex oldElement w
                 = if forallb (fun control => valid (snd control)) controls
                   then None else Some (tt, w)).
  { unfold saveElement. unfold bind at 1, getThis at 1. fold controls.
    assert (Hex : existsb (fun control => negb (valid (snd control)))
                    controls
                  = negb (forallb (fun control => valid (snd control))
                            controls)).
    { induction controls as [|c cs IH]; simpl; [reflexivity|].
      rewrite IH. destruct (valid (snd c)); reflexivity. }
    rewrite Hex.
    destruct (forallb _ controls); simpl; [|reflexivity].
    unfold bind at 1.
    destruct (deepCopy oldElement w) as [[element w1]|] eqn:E1;
      [|reflexivity].
    apply keeps_this_deepCopy in E1 as [E1 _].
    unfold bind at 1.
    match goal with |- context [forEach ?l ?b w1] =>
      destruct (forEach l b w1) as [[[] w2]|] eqn:E2; [|reflexivity];
      assert (E3 : this w2 = this w1)
    end.
    { refine (proj1 (keeps_this_forEach _ _ _ _ _ _ E2)). intros x. keeps. }
    unfold_M. rewrite E3, E1, Hnone. reflexivity. }
  rewrite Hrun.
  destruct (forallb _ controls).
  - split; [tauto | auto].
  - split; [split; discriminate | auto].
Qed.

End SavingUnknownRow.

Lemma saveElement_unknown_row_throws_witness :
  @saveElement sample_host 0 (VRef 1) world_editing = None.
Proof.
  apply (@saveElement_unknown_row_throws sample_host 0 (VRef 1) world_editing
           eq_refl).
  reflexivity.
Defined.

(* ================================================================== *)
(** * Objects that nest too deep for [deepCopy] *)
(* ================================================================== *)

Section TooDeep.
Context `{HostEnv}.

Lemma deepCopy_fuel_too_deep (h0 : heap) (n : nat) (v : jsval) :
  depth_gt h0 n v ->
  forall h : heap,
    (forall b, b < List.length h0 -> h !! b = h0 !! b) ->
    deepCopy_fuel n v h = None.
Proof.
  induction 1 as [a c ps Ha|n a c ps k Ha Hk _ IH]; intros h Hbase;
    pose proof (lookup_lt_Some _ _ _ Ha) as Halt;
    simpl; rewrite (Hbase a Halt), Ha; simpl; [reflexivity|].
  destruct (constructor_of c ps) as [c'|]; [|reflexivity]. simpl.
  destruct (construct c') as [fields|]; [|reflexivity]. simpl.
  assert (Hlen0 : List.length h0 <= List.length h).
  { destruct (Nat.le_gt_cases (List.length h0) (List.length h)) as [|Hgt];
      [assumption|].
    assert (Hin : List.length h < List.length h0) by lia.
    apply lookup_lt_is_Some_2 in Hin as [o Ho].
    rewrite <- Hbase in Ho by lia.
    apply lookup_lt_Some in Ho. lia. }
  assert (Hfold : forall ks hc,
            In k ks ->
            (forall b, b < List.length h0 -> hc !! b = h0 !! b) ->
            foldl (deepCopy_prop (deepCopy_fuel n) (VRef a)
                     (VRef (List.length h))) (Some hc) ks = None).
  { induction ks as [|k0 ks IHks]; intros hc Hin Hhc; [destruct Hin|].
    cbn [foldl].
    destruct (deepCopy_prop (deepCopy_fuel n) (VRef a)
                (VRef (List.length h)) (Some hc) k0) as [hc1|] eqn:Hstep;
      [|apply foldl_deepCopy_prop_None].
    unfold deepCopy_prop in Hstep. simpl in Hstep.
    rewrite (Hhc a Halt), Ha in Hstep. simpl in Hstep.
    destruct (deepCopy_fuel n (get_prop ps k0) hc) as [[r hr]|] eqn:Hrec;
      [|discriminate].
    simpl in Hstep.
    destruct (hr !! List.length h) as [oc|]; [|discriminate].
    simpl in Hstep. injection Hstep as <-.
    destruct (string_dec k0 k) as [->|Hne].
    - rewrite (IH hc Hhc) in Hrec. discriminate.
    - destruct Hin as [?|Hin]; [congruence|].
      apply IHks; [exact Hin|].
      intros b Hb. rewrite list_lookup_insert_ne by lia.
      destruct (deepCopy_fuel_frame _ _ _ _ _ Hrec) as [_ Hkeep].
      rewrite Hkeep; [apply Hhc; exact Hb|].
      pose proof (Hhc b Hb) as Hlook.
      apply lookup_lt_is_Some_2 in Hb as [o Ho]. rewrite Ho in Hlook.
      eapply lookup_lt_Some. exact Hlook. }
  rewrite Hfold; [reflexivity | exact Hk |].
  intros b Hb. rewrite lookup_app_l by lia. apply Hbase. exact Hb.
Qed.

(** X20.  [deepCopy] throws on a value that nests objects deeper than the call
    stack allows; an object that has itself under one of its properties
    nests deeper than any bound, so that [deepCopy] throws on it
    whatever the depth of the stack. *)
Theorem deepCopy_too_deep_throws (w : World) :
  (forall obj : jsval,
      depth_gt (mem w) stack_depth obj -> deepCopy obj w = None) /\
  (forall (a c : nat) (ps : props) (k : string),
      mem w !! a = Some (Obj (KObject c) ps) ->
      In k (keys ps) -> get_prop ps k = VRef a ->
      (forall n : nat, deepCopy_fuel n (VRef a) (mem w) = None) /\
      deepCopy (VRef a) w = None).
Proof.
  assert (Hdeep : forall n obj, depth_gt (mem w) n obj ->
                                deepCopy_fuel n obj (mem w) = None).
  { intros n obj Hobj. eapply deepCopy_fuel_too_deep; eauto. }
  split.
  - intros obj Hobj. unfold deepCopy. unfold_M. simpl.
    rewrite (Hdeep _ _ Hobj). reflexivity.
  - intros a c ps k Ha Hk Hself.
    assert (Hcycle : forall n, depth_gt (mem w) n (VRef a)).
    { induction n as [|n IHn]; [econstructor; exact Ha|].
      eapply depth_gt_S; [exact Ha | exact Hk |]. rewrite Hself. exact IHn. }
    split; [intros n; apply Hdeep, Hcycle|].
    unfold deepCopy. unfold_M. simpl.
    rewrite (Hdeep _ _ (Hcycle stack_depth)). reflexivity.
Qed.

End TooDeep.

Lemma deepCopy_too_deep_throws_witness :
  @deepCopy sample_host (VRef 0) world_cyclic = None.
Proof.
  destruct (@deepCopy_too_deep_throws sample_host world_cyclic)
    as [_ Hcyclic].
  apply (Hcyclic 0 0 [("self", VRef 0)] "self" eq_refl).
  - left. reflexivity.
  - reflexivity.
Defined.

(* ================================================================== *)
(** * The form-field builder: what the setters write *)
(* ================================================================== *)

Lemma assign_field_writes (a : nat) (o : obj) (k : string) (x : jsval)
    (w : World) :
  mem w !! a = Some o ->
  exists w' : World,
    assign_field (VRef a) k x w = Some (tt, w') /\
    writes_field (VRef a) k x w w'.
Proof.
  intros Ha. pose proof (lookup_lt_Some _ _ _ Ha) as Hlt.
  unfold assign_field, set_member. unfold_M. simpl. rewrite Ha. simpl.
  eexists. split; [reflexivity|]. unfold writes_field. simpl.
  rewrite list_lookup_insert_eq by exact Hlt. simpl.
  rewrite Ha. simpl.
  split; [rewrite get_prop_set_prop_eq; reflexivity|].
  split; [intros k' Hne; rewrite get_prop_set_prop_ne by congruence;
          reflexivity|].
  split; [|split; reflexivity].
  intros b ob Hb Hob. rewrite list_lookup_insert_ne by congruence. exact Hob.
Qed.

Lemma assign_field_not_object (self : jsval) (k : string) (x : jsval)
    (w : World) :
  (forall a, self <> VRef a) -> assign_field self k x w = None.
Proof.
  intros Hself. unfold assign_field, set_member. unfold_M. simpl.
  destruct self; try reflexivity. exfalso. eapply Hself. reflexivity.
Qed.

Lemma setter_writes (a : nat) (o : obj) (k : string) (x : jsval) (w : World) :
  mem w !! a = Some o ->
  exists w' : World,
    (assign_field (VRef a) k x ;; ret (VRef a)) w = Some (VRef a, w') /\
    writes_field (VRef a) k x w w'.
Proof.
  intros Ha. destruct (assign_field_writes a o k x w Ha) as (w' & Hrun & Hw).
  exists w'. unfold_M. rewrite Hrun. auto.
Qed.

(** [withValidators] on what is no array: the value becomes the one
    element of a new array, which is what the field is set to. *)
Lemma withValidators_wraps (a : nat) (o : obj) (x : jsval) (w : World) :
  mem w !! a = Some o ->
  isArray (mem w) x = false ->
  exists w' : World,
    withValidators (VRef a) x w = Some (VRef a, w') /\
    writes_field (VRef a) "validators" (VRef (List.length (mem w))) w w' /\
    mem w' !! List.length (mem w) = Some (Obj (KArray [x]) []).
Proof.
  intros Ha Harr. unfold withValidators. unfold bind at 1, getMem at 1.
  rewrite Harr. unfold new_array. unfold bind at 2 3 4.
  unfold getMem, putMem, ret at 1. simpl.
  set (w1 := {| this := this w;
                mem := mem w ++ [Obj (KArray [x]) []];
                out := out w |}).
  assert (Ha1 : mem w1 !! a = Some o).
  { simpl. rewrite lookup_app_l by (eapply lookup_lt_Some; eauto).
    exact Ha. }
  destruct (assign_field_writes a o "validators"
              (VRef (List.length (mem w))) w1 Ha1)
    as (w' & Hrun & Hget & Hother & Hframe & Hthis & Hout).
  exists w'.
  split; [unfold bind, ret; cbv beta; fold w1; rewrite Hrun;
          reflexivity|].
  pose proof (lookup_lt_Some _ _ _ Ha) as Hlt.
  split; [|apply Hframe;
           [intros [= ?]; lia
           |simpl; rewrite lookup_app_r by lia;
            rewrite Nat.sub_diag; reflexivity]].
  split; [exact Hget|].
  split.
  { intros k' Hne. rewrite (Hother k' Hne). simpl.
    rewrite lookup_app_l by exact Hlt. reflexivity. }
  split; [|split; assumption].
  intros b ob Hb Hob. apply Hframe; [exact Hb|].
  simpl. rewrite lookup_app_l by (eapply lookup_lt_Some; eauto).
  exact Hob.
Qed.

(** X21.  On a receiver that is an object, each setter of [AbstractFormField]
    returns the receiver and sets the one field it is named after, to
    the very value it was given, leaving every other field of the
    receiver, every other object, the component and the event log as they
    were; [withValidators] stores an array it is given as it is (the same
    array, not a copy) and anything else as the one element of a new
    array.  On a receiver that is no object, every setter throws. *)
Theorem setters_write_one_field (self : jsval) (w : World) :
  (forall (a : nat) (o : obj),
      self = VRef a -> mem w !! a = Some o ->
      (forall x : jsval,
          (exists w', withInit self x w = Some (self, w') /\
                      writes_field self "init" x w w') /\
          (exists w', withApply self x w = Some (self, w') /\
                      writes_field self "apply" x w w') /\
          (exists w', withErrors self x w = Some (self, w') /\
                      writes_field self "errors" x w w') /\
          (isArray (mem w) x = true ->
           exists w', withValidators self x w = Some (self, w') /\
                      writes_field self "validators" x w w') /\
          (isArray (mem w) x = false ->
           exists w', withValidators self x w = Some (self, w') /\
                      writes_field self "validators"
                        (VRef (List.length (mem w))) w w' /\
                      mem w' !! List.length (mem w)
                      = Some (Obj (KArray [x]) []))) /\
      (forall s : string,
          (exists w', withPlaceholder self s w = Some (self, w') /\
                      writes_field self "placeholder" (VStr s) w w') /\
          (exists w', withHint self s w = Some (self, w') /\
                      writes_field self "hint" (VStr s) w w'))) /\
  ((forall a, self <> VRef a) ->
   forall (x : jsval) (s : string),
     withInit self x w = None /\ withApply self x w = None /\
     withErrors self x w = None /\ withValidators self x w = None /\
     withPlaceholder self s w = None /\ withHint self s w = None).
Proof.
  split.
  - intros a o -> Ha. split.
    + intros x.
      split; [apply (setter_writes a o); exact Ha|].
      split; [apply (setter_writes a o); exact Ha|].
      split; [apply (setter_writes a o); exact Ha|].
      split.
      * intros Harr. unfold withValidators. unfold bind at 1, getMem at 1.
        rewrite Harr. apply (setter_writes a o). exact Ha.
      * intros Harr. apply (withValidators_wraps a o); assumption.
    + intros s. split; apply (setter_writes a o); exact Ha.
  - intros Hself x s.
    unfold withInit, withApply, withErrors, withPlaceholder, withHint,
      withValidators, new_array.
    unfold bind, ret, getMem, putMem.
    rewrite !assign_field_not_object by exact Hself.
    repeat split; try reflexivity.
    destruct (isArray (mem w) x); rewrite assign_field_not_object;
      try reflexivity; exact Hself.
Qed.

Lemma setters_write_one_field_witness :
  exists w' : World,
    withInit (VRef 5) (VFun 1) world_with_field = Some (VRef 5, w') /\
    writes_field (VRef 5) "init" (VFun 1) world_with_field w'.
Proof.
  destruct (setters_write_one_field (VRef 5) world_with_field)
    as [Hobject _].
  destruct (Hobject 5 _ eq_refl eq_refl) as [Hvalue _].
  apply (Hvalue (VFun 1)).
Defined.

(** C9.  On a form field, which is an object of the heap, every setter
    returns, what it returns is the receiver, and it has then written
    what it was given to its field and nothing else; [withValidators]
    writes an array it is given.  Given one validator function it writes
    a new array whose one element is that function, and leaves the very
    world that it leaves when it is given the array literal of that
    function. *)
Theorem fluent_builder_contract (a : nat) (o : obj) (w : World) :
  mem w !! a = Some o ->
  let self := VRef a in
  (forall x : jsval,
      (exists w', withInit self x w = Some (self, w') /\
                  writes_field self "init" x w w') /\
      (exists w', withApply self x w = Some (self, w') /\
                  writes_field self "apply" x w w') /\
      (exists w', withErrors self x w = Some (self, w') /\
                  writes_field self "errors" x w w') /\
      (exists w', withValidators self x w = Some (self, w') /\
                  (isArray (mem w) x = true ->
                   writes_field self "validators" x w w'))) /\
  (forall s : string,
      (exists w', withPlaceholder self s w = Some (self, w') /\
                  writes_field self "placeholder" (VStr s) w w') /\
      (exists w', withHint self s w = Some (self, w') /\
                  writes_field self "hint" (VStr s) w w')) /\
  (forall f : nat,
      exists w' : World,
        withValidators self (VFun f) w = Some (self, w') /\
        writes_field self "validators" (VRef (List.length (mem w))) w w' /\
        mem w' !! List.length (mem w) = Some (Obj (KArray [VFun f]) []) /\
        (do arr <- new_array [VFun f]; withValidators self arr) w
        = Some (self, w')).
Proof.
  intros Ha self. split; [|split].
  - intros x.
    split; [apply (setter_writes a o); exact Ha|].
    split; [apply (setter_writes a o); exact Ha|].
    split; [apply (setter_writes a o); exact Ha|].
    destruct (isArray (mem w) x) eqn:Harr.
    + destruct (setter_writes a o "validators" x w Ha) as (w' & Hrun & Hw).
      exists w'. split; [|intros _; exact Hw].
      unfold withValidators. unfold bind at 1, getMem at 1.
      rewrite Harr. exact Hrun.
    + destruct (withValidators_wraps a o x w Ha Harr) as (w' & Hrun & _).
      exists w'. split; [exact Hrun | discriminate].
  - intros s. split; apply (setter_writes a o); exact Ha.
  - intros f.
    destruct (withValidators_wraps a o (VFun f) w Ha eq_refl)
      as (w' & Hrun & Hw & Harray).
    exists w'. split; [exact Hrun|]. split; [exact Hw|].
    split; [exact Harray|].
    unfold self. rewrite <- Hrun.
    unfold withValidators, new_array. unfold_M. simpl.
    pose proof (isArray_alloc (mem w) [VFun f]) as E.
    unfold isArray in E. rewrite E. reflexivity.
Qed.

Lemma fluent_builder_contract_witness :
  exists w' : World,
    withValidators (VRef 5) (VFun 1) world_with_field = Some (VRef 5, w') /\
    get_member (mem w') (VRef 5) "validators" = Some (VRef 8) /\
    mem w' !! 8 = Some (Obj (KArray [VFun 1]) []) /\
    (do arr <- new_array [VFun 1]; withValidators (VRef 5) arr)
      world_with_field = Some (VRef 5, w').
Proof.
  destruct (fluent_builder_contract 5 _ world_with_field eq_refl)
    as (_ & _ & Hone).
  destruct (Hone 1) as (w' & Hrun & Hw & Harray & Hsame).
  exists w'. split; [exact Hrun|]. split; [exact (proj1 Hw)|].
  split; [exact Harray | exact Hsame].
Defined.

Lemma bind_run {A B} (m : M A) (k : A -> M B) (w w1 : World) (a : A) :
  m w = Some (a, w1) -> bind m k w = k a w1.
Proof. intros Hm. unfold bind. rewrite Hm. reflexivity. Qed.

Lemma new_array_run (l : list jsval) (w : World) :
  new_array l w
  = Some (VRef (List.length (mem w)),
          {| this := this w; mem := mem w ++ [Obj (KArray l) []];
             out := out w |}).
Proof. reflexivity. Qed.

Lemma assign_field_in_heap (w : World) (h rest : heap) (o : obj)
    (k : string) (x : jsval) :
  mem w = h ++ o :: rest ->
  assign_field (VRef (List.length h)) k x w
  = Some (tt, {| this := this w;
                 mem := h ++ Obj (okind o) (set_prop (oprops o) k x) :: rest;
                 out := out w |}).
Proof.
  intros Hmem. unfold assign_field, set_member. unfold_M. simpl.
  rewrite Hmem, list_lookup_middle by reflexivity. simpl.
  rewrite insert_app_r_alt by lia. rewrite Nat.sub_diag. reflexivity.
Qed.

(** X22.  [new AbstractFormField()] returns a new object whose [validators]
    and [errors] are two new empty arrays of its own, whose [placeholder]
    and [hint] are the empty string, and which has no [formType], [init]
    or [apply]; the objects that were there, the component and the event
    log are left as they were. *)
Theorem new_AbstractFormField_defaults (cls : nat) (w : World) :
  let n := List.length (mem w) in
  new_AbstractFormField cls w
  = Some (VRef n,
          {| this := this w;
             mem := mem w
                    ++ [Obj (KObject cls)
                          [("validators", VRef (S n));
                           ("errors", VRef (S (S n)));
                           ("placeholder", VStr ""); ("hint", VStr "")];
                        Obj (KArray []) []; Obj (KArray []) []];
             out := out w |}).
Proof.
  intros n. unfold new_AbstractFormField.
  unfold bind at 1, getMem at 1. unfold bind at 1, putMem at 1.
  cbn [alloc fst snd].
  erewrite bind_run by apply new_array_run. cbn [this mem out].
  erewrite bind_run
    by (apply assign_field_in_heap; cbn [mem]; rewrite <- app_assoc;
        reflexivity).
  cbn [this mem out okind oprops set_prop].
  erewrite bind_run by apply new_array_run. cbn [this mem out].
  erewrite bind_run
    by (apply assign_field_in_heap; cbn [mem]; rewrite <- app_assoc;
        reflexivity).
  erewrite bind_run
    by (apply assign_field_in_heap; cbn [mem]; reflexivity).
  erewrite bind_run
    by (apply assign_field_in_heap; cbn [mem]; reflexivity).
  unfold ret. cbn. rewrite !length_app. cbn.
  fold n. repeat f_equal; lia.
Qed.

(* ================================================================== *)
(** * The filter and the data source *)
(* ================================================================== *)

Section FilterAndRebuild.
Context `{HostEnv}.

(** X25.  [applyFilter] throws exactly when no data source has been built yet;
    otherwise it changes nothing but the filter of the data source.  The
    filter does not outlive the data source: after the next data change
    the component has a new data source, whose filter is empty. *)
Theorem applyFilter_needs_data_source (filterValue : string) (w : World) :
  (applyFilter filterValue w = None <-> dataSource (this w) = None) /\
  (forall w1 : World,
      applyFilter filterValue w = Some (tt, w1) ->
      w1 = {| this := set_dataSource (dataSource (this w1)) (this w);
              mem := mem w; out := out w |} /\
      forall changes : SimpleChanges,
        changes_data changes = true ->
        exists (w2 : World) (ds : MatTableDataSource),
          ngOnChanges changes w1 = Some (tt, w2) /\
          dataSource (this w2) = Some ds /\
          ds_id ds = nextId (this w) /\
          ds_filter ds = "").
Proof.
  unfold applyFilter, theDataSource. unfold_M. simpl.
  destruct (dataSource (this w)) as [ds0|] eqn:Hds.
  - split; [split; discriminate|].
    intros w1 [= <-]. simpl. split; [reflexivity|].
    intros changes Hd. unfold ngOnChanges. rewrite Hd.
    unfold clearAddedEntry, recreateDataSource, cleanUpAfterDataChange,
      turnOffSorting, theDataSource.
    unfold_M. simpl.
    repeat (case_if; simpl); eexists; eexists;
      (split; [reflexivity|]); simpl; auto.
  - split; [tauto|]. discriminate.
Qed.

End FilterAndRebuild.

Lemma applyFilter_needs_data_source_witness :
  exists (w1 w2 : World) (ds : MatTableDataSource),
    @applyFilter "Ada" world_loaded = Some (tt, w1) /\
    @ngOnChanges sample_host
      {| changes_data := true; changes_columns := false |} w1
    = Some (tt, w2) /\
    dataSource (this w2) = Some ds /\
    ds_filter ds = "".
Proof.
  destruct (@applyFilter_needs_data_source sample_host "Ada" world_loaded)
    as [_ Hrun].
  destruct (Hrun (after (applyFilter "Ada") world_loaded) eq_refl)
    as [_ Hnext].
  destruct (Hnext {| changes_data := true; changes_columns := false |}
              eq_refl) as (w2 & ds & Hchange & Hds & _ & Hfilter).
  exists (after (applyFilter "Ada") world_loaded), w2, ds. auto.
Defined.

(* ================================================================== *)
(** * Which cells turn into form fields, and how cells are aligned *)
(* ================================================================== *)

(** X26.  A cell of a column without a [formField] is never in editing:
    [isEditingColumn] gives the falsy [formField] back without looking
    the element up, so that it does not throw on an element that the
    row-status map does not know.  A cell of a column with a [formField]
    is in editing exactly when its row is: [isEditingColumn] throws on an
    unknown element, answers what [isEditing] answers on a known one, and
    answers [true] right after [startEditElement]. *)
Theorem isEditingColumn_needs_formField (tcol : props) (element : jsval)
    (w : World) :
  (truthy (get_prop tcol "formField") = false ->
   isEditingColumn tcol element w = Some (get_prop tcol "formField", w)) /\
  (truthy (get_prop tcol "formField") = true ->
   (isEditingColumn tcol element w = None <->
    Map_get (dataStatus (this w)) element = None) /\
   (forall st : DataStatus,
       Map_get (dataStatus (this w)) element = Some st ->
       isEditingColumn tcol element w = Some (VBool (editing st), w)) /\
   exists w' : World,
     startEditElement element w = Some (tt, w') /\
     isEditingColumn tcol element w' = Some (VBool true, w')).
Proof.
  unfold isEditingColumn, isEditing, startEditElement. unfold_M. simpl.
  split; intros Hff; rewrite Hff; [reflexivity|].
  split; [|split].
  - destruct (Map_get (dataStatus (this w)) element); simpl;
      split; congruence.
  - intros st Hget. rewrite Hget. reflexivity.
  - eexists. split; [reflexivity|]. simpl.
    rewrite Map_get_set_eq. reflexivity.
Qed.

Lemma isEditingColumn_needs_formField_witness :
  isEditingColumn [("property", VStr "name")] (VRef 7) world_loaded
  = Some (VUndefined, world_loaded).
Proof.
  apply (isEditingColumn_needs_formField [("property", VStr "name")] (VRef 7)
           world_loaded).
  reflexivity.
Defined.

Section Alignment.
Context `{AlignEnum}.

Lemma strict_eq_ne (a b : jsval) : a <> b -> strict_eq a b = false.
Proof.
  intros Hne. destruct a, b; cbv beta iota delta [strict_eq];
    try reflexivity; apply bool_decide_eq_false_2; exact Hne.
Qed.

(** X27.  When [Align.LEFT] and [Align.CENTER] are two different values, neither
    of them [NaN]: [getAlign] and [getTextAlign] give the start for
    [LEFT], the centre for [CENTER] and the end for every other value, an
    alignment that was never set included; and [isCenterAlign] holds of a
    column exactly when [getAlign] and [getTextAlign] give the centre for
    its alignment. *)
Theorem alignment_consistent (tcol : props) :
  Align_LEFT <> VNaN -> Align_CENTER <> VNaN -> Align_LEFT <> Align_CENTER ->
  (getAlign Align_LEFT = "flex-start" /\ getTextAlign Align_LEFT = "start") /\
  (getAlign Align_CENTER = "center" /\ getTextAlign Align_CENTER = "center") /\
  (forall align : jsval,
      align <> Align_LEFT -> align <> Align_CENTER ->
      getAlign align = "flex-end" /\ getTextAlign align = "end") /\
  (isCenterAlign tcol = true <->
   getAlign (get_prop tcol "align") = "center") /\
  (isCenterAlign tcol = true <->
   getTextAlign (get_prop tcol "align") = "center").
Proof.
  intros Hleft Hcenter Hdiff.
  unfold getAlign, getTextAlign, isCenterAlign.
  rewrite !strict_eq_refl by assumption.
  rewrite (strict_eq_ne Align_CENTER Align_LEFT) by congruence.
  split; [auto|]. split; [auto|]. split.
  - intros align Hl Hc. rewrite !strict_eq_ne by assumption. auto.
  - set (align := get_prop tcol "align").
    destruct (strict_eq align Align_LEFT) eqn:Hl;
      destruct (strict_eq align Align_CENTER) eqn:Hc;
      try (split; split; (discriminate || reflexivity)).
    (* both tests hold only if the two members are the same value *)
    exfalso. apply Hdiff.
    destruct align, Align_LEFT, Align_CENTER;
      cbv beta iota delta [strict_eq] in Hl, Hc; try discriminate;
      apply bool_decide_eq_true_1 in Hl, Hc; congruence.
Qed.

End Alignment.

Lemma alignment_consistent_witness :
  @getAlign sample_align VUndefined = "flex-end" /\
  @getTextAlign sample_align VUndefined = "end".
Proof.
  destruct (@alignment_consistent sample_align []) as (_ & _ & Hother & _);
    try discriminate.
  apply Hother; discriminate.
Defined.

(* ================================================================== *)
(** * The controls of a row in a table of at most ten rows *)
(* ================================================================== *)

Lemma single_digit_prefix (r r' : nat) (s : string) :
  r < 10 -> r' < 10 ->
  startsWith (toString_nat r' +:+ "_" +:+ s) (toString_nat r) = true ->
  r' = r.
Proof.
  intros Hr Hr'.
  do 10 (destruct r as [|r]; [
    do 10 (destruct r' as [|r']; [
      first [reflexivity | cbv; discriminate] |]); lia |]).
  lia.
Qed.

(** X28.  As long as every form control belongs to one of the rows 0 to 9, the
    controls that [saveElement] collects for such a row are exactly those
    filed under the cells of the row, each with the index of its column:
    the index of another row then never starts with the index of the
    row. *)
Theorem collectControls_exact_below_ten (r : nat)
    (entries : list (string * AbstractControl)) :
  r < 10 ->
  (forall (id : string) (control : AbstractControl),
      In (id, control) entries ->
      exists r' c : nat,
        r' < 10 /\ id = toString_nat r' +:+ "_" +:+ toString_nat c) ->
  forall (col : option nat) (control : AbstractControl),
    In (col, control) (collectControls r entries) <->
    exists c : nat,
      col = Some c /\
      In (toString_nat r +:+ "_" +:+ toString_nat c, control) entries.
Proof.
  intros Hr Hids col control. split.
  - unfold collectControls, iteratorToArray.
    intros Hin. apply in_map_iff in Hin as ([id control'] & Heq & Hin).
    simpl in Heq. injection Heq as <- <-.
    apply filter_In in Hin as [Hin Hstarts]. simpl in Hstarts.
    destruct (Hids _ _ Hin) as (r' & c & Hr' & ->).
    apply single_digit_prefix in Hstarts as ->; [|assumption..].
    exists c. split; [apply control_id_column | exact Hin].
  - intros (c & -> & Hin). apply collectControls_row. exact Hin.
Qed.

Lemma collectControls_exact_below_ten_witness :
  In (Some 0, {| ctl_id := 2; value := VStr "Eve"; valid := true |})
    (collectControls 0 (formControls (this world_editing))) <->
  exists c : nat,
    Some 0 = Some c /\
    In (toString_nat 0 +:+ "_" +:+ toString_nat c,
        {| ctl_id := 2; value := VStr "Eve"; valid := true |})
      (formControls (this world_editing)).
Proof.
  apply (collectControls_exact_below_ten 0
           (formControls (this world_editing))).
  - lia.
  - intros id control [[= <- <-]|[]]. exists 0, 0. split; [lia | reflexivity].
Defined.

(* ================================================================== *)
(** * Form controls outlive cancelling and saving *)
(* ================================================================== *)

Section StaleControls.
Context `{HostEnv}.

Lemma getFormControl_taken (rowIndex colIndex : nat) (tcol : props)
    (element : jsval) (control : AbstractControl) (w : World) :
  Map_get (formControls (this w))
    (toString_nat rowIndex +:+ "_" +:+ toString_nat colIndex) = Some control ->
  getFormControl rowIndex colIndex tcol element w = Some (control, w).
Proof.
  intros Hget. unfold getFormControl. unfold_M.
  unfold Map_has. rewrite Hget.
  rewrite bool_decide_eq_true_2 by eauto. reflexivity.
Qed.

(** X29.  Neither [cancelEditElement] nor [saveElement] takes a form control
    away: a control that is filed under a cell is still what
    [getFormControl] returns for the cell afterwards, for whatever column
    and element, with the value that was typed into it and not with the
    value of the row; only a change of the data or of the columns, or
    [startAddElement], empties the form-control map. *)
Theorem controls_outlive_cancel_and_save (rowIndex colIndex : nat)
    (control : AbstractControl) (w : World) :
  Map_get (formControls (this w))
    (toString_nat rowIndex +:+ "_" +:+ toString_nat colIndex) = Some control ->
  (forall (cancelled : jsval) (w' : World),
      cancelEditElement cancelled w = Some (tt, w') ->
      forall (tcol : props) (element : jsval),
        getFormControl rowIndex colIndex tcol element w'
        = Some (control, w')) /\
  (forall (savedIndex : nat) (saved : jsval) (w' : World),
      saveElement savedIndex saved w = Some (tt, w') ->
      forall (tcol : props) (element : jsval),
        getFormControl rowIndex colIndex tcol element w'
        = Some (control, w')).
Proof.
  intros Hget. split.
  - intros cancelled w' Hrun tcol element.
    apply getFormControl_taken.
    revert Hrun. unfold cancelEditElement. unfold_M.
    destruct (Map_get (dataStatus (this w)) cancelled); [|discriminate].
    intros [= <-]. exact Hget.
  - intros savedIndex saved w' Hrun tcol element.
    apply getFormControl_taken.
    apply saveElement_this in Hrun as [-> | ->]; exact Hget.
Qed.

(** X30.  The guard of the template: when [isEditingColumn] answers something
    truthy for a cell, the column has a [formField] and the row is in
    editing.  Without the guard, [getFormControl] throws on a cell that
    has no control yet if the column's [formField] is [undefined] or
    [null]. *)
Theorem getFormControl_guarded (rowIndex colIndex : nat) (tcol : props)
    (element : jsval) (w : World) :
  (forall (v : jsval) (w' : World),
      isEditingColumn tcol element w = Some (v, w') ->
      truthy v = true ->
      truthy (get_prop tcol "formField") = true /\
      exists st : DataStatus,
        Map_get (dataStatus (this w)) element = Some st /\
        editing st = true) /\
  (Map_get (formControls (this w))
     (toString_nat rowIndex +:+ "_" +:+ toString_nat colIndex) = None ->
   get_prop tcol "formField" = VUndefined \/
   get_prop tcol "formField" = VNull ->
   getFormControl rowIndex colIndex tcol element w = None).
Proof.
  split.
  - intros v w'. unfold isEditingColumn, isEditing. unfold_M.
    destruct (truthy (get_prop tcol "formField")) eqn:Hff.
    + destruct (Map_get (dataStatus (this w)) element) as [st|];
        [|discriminate].
      intros [= <- <-] Hv. simpl in Hv. eauto.
    + intros [= <- <-] Hv. congruence.
  - intros Hfree Hff. unfold getFormControl. unfold_M.
    unfold Map_has. rewrite Hfree.
    rewrite bool_decide_eq_false_2 by (intros [? ?]; discriminate).
    destruct Hff as [-> | ->]; reflexivity.
Qed.

End StaleControls.

Lemma controls_outlive_cancel_and_save_witness :
  @getFormControl sample_host 0 0 name_column (VRef 2)
    (after (cancelEditElement (VRef 0)) world_editing)
  = Some ({| ctl_id := 2; value := VStr "Eve"; valid := true |},
          after (cancelEditElement (VRef 0)) world_editing).
Proof.
  destruct (@controls_outlive_cancel_and_save sample_host 0 0
              {| ctl_id := 2; value := VStr "Eve"; valid := true |}
              world_editing eq_refl) as [Hcancel _].
  apply (Hcancel (VRef 0)). reflexivity.
Defined.

Lemma getFormControl_guarded_witness :
  @getFormControl sample_host 1 0 [("property", VStr "name")] (VRef 2)
    world_editing
  = None.
Proof.
  apply (@getFormControl_guarded sample_host 1 0
           [("property", VStr "name")] (VRef 2) world_editing).
  - reflexivity.
  - left. reflexivity.
Defined.
